(** * Error classification and process-execution types of the Jupyter extension

    A shallow embedding of
    - [src/client/common/errors/types.ts]: [BaseError], [WrappedError],
      [getErrorCategory], [ErrorCategory];
    - [src/client/common/process/types.ts]: [isDaemonPoolCreationOption],
      [StdErrError], the option and result types;
    - [src/client/datascience/errors/jupyterInstallError.ts].

    JavaScript values are modelled with an explicit store: objects live in a
    heap and are denoted by their address, so that "the same object" is
    equality of addresses and [new] is an allocation. *)

From Stdlib Require Import ZArith NArith Strings.Byte.
From stdpp Require Import base option strings list gmap.

(** ** JavaScript values *)

Module Js.

(** A value of type [any].  Numbers are kept as far as truthiness and strict
    equality tell them apart: an integer or NaN. *)
Inductive Value : Type :=
| VUndefined
| VNull
| VBool (b : bool)
| VNumber (n : Z)
| VNaN
| VString (s : string)
| VRef (l : nat).

#[global] Instance Value_eq_dec : EqDecision Value.
Proof. solve_decision. Defined.

(** [ToBoolean]: what [if (v)] and [!v] test. *)
Definition truthy (v : Value) : bool :=
  match v with
  | VUndefined | VNull | VNaN => false
  | VBool b => b
  | VNumber n => negb (n =? 0)%Z
  | VString s => negb (String.eqb s "")
  | VRef _ => true
  end.

(** [a === b]: no conversion, NaN differs from itself, objects compare by
    address. *)
Definition strictEquals (a b : Value) : bool :=
  match a, b with
  | VNaN, _ | _, VNaN => false
  | _, _ => bool_decide (a = b)
  end.

(** A template literal placeholder [${x}] for a string-or-undefined [x]. *)
Definition template (x : option string) : string := default "undefined" x.

(** Classes, by their [extends] clauses. *)
Inductive JsClass : Type :=
| Object
| Extends (name : string) (super : JsClass).

Fixpoint Class_eqb (c d : JsClass) : bool :=
  match c, d with
  | Object, Object => true
  | Extends n c', Extends m d' => String.eqb n m && Class_eqb c' d'
  | _, _ => false
  end.

(** [x instanceof C] for an [x] whose class is [c]: walk the prototype chain
    of [c] looking for [C]. *)
Fixpoint instanceOfClass (c C : JsClass) : bool :=
  Class_eqb c C ||
  match c with
  | Object => false
  | Extends _ super => instanceOfClass super C
  end.

(** A field declared by a class is present on exactly the instances of that
    class. *)
Definition slot (present : bool) (T : Type) : Type :=
  if present then T else unit.

(** Type narrowing by a class test: the declared fields, when present. *)
Definition narrow {T : Type} (present : bool) : slot present T -> option T :=
  match present with
  | true => fun x => Some x
  | false => fun _ => None
  end.

End Js.

Export Js.

(** ** [errors/types.ts] *)

Module Errors.

(** [export type ErrorCategory = 'cancelled' | ... | 'unknown'] *)
Inductive ErrorCategory : Type :=
| cancelled
| timeout
| daemon
| zmq
| debugger
| kerneldied
| kernelpromisetimeout
| jupytersession
| jupyterconnection
| jupyterinstall
| jupyterselfcert
| invalidkernel
| noipykernel
| fetcherror
| notinstalled
| kernelspecnotfound (* Left for historical purposes, not used anymore. *)
| unsupportedKernelSpec (* Left for historical purposes, not used anymore. *)
| sessionDisposed
| unknown.

#[global] Instance ErrorCategory_eq_dec : EqDecision ErrorCategory.
Proof. solve_decision. Defined.

(** The string literal a member of the union is at run time. *)
Definition literal (c : ErrorCategory) : string :=
  match c with
  | cancelled => "cancelled"
  | timeout => "timeout"
  | daemon => "daemon"
  | zmq => "zmq"
  | debugger => "debugger"
  | kerneldied => "kerneldied"
  | kernelpromisetimeout => "kernelpromisetimeout"
  | jupytersession => "jupytersession"
  | jupyterconnection => "jupyterconnection"
  | jupyterinstall => "jupyterinstall"
  | jupyterselfcert => "jupyterselfcert"
  | invalidkernel => "invalidkernel"
  | noipykernel => "noipykernel"
  | fetcherror => "fetcherror"
  | notinstalled => "notinstalled"
  | kernelspecnotfound => "kernelspecnotfound"
  | unsupportedKernelSpec => "unsupportedKernelSpec"
  | sessionDisposed => "sessionDisposed"
  | unknown => "unknown"
  end.

(** The members of the union, in declaration order. *)
Definition declaredCategories : list ErrorCategory :=
  [cancelled; timeout; daemon; zmq; debugger; kerneldied; kernelpromisetimeout;
   jupytersession; jupyterconnection; jupyterinstall; jupyterselfcert;
   invalidkernel; noipykernel; fetcherror; notinstalled; kernelspecnotfound;
   unsupportedKernelSpec; sessionDisposed; unknown].

(** The taxonomy in the words of the specification (its section 7), to be
    compared with the union the code declares. *)
Definition specTaxonomy : list string :=
  ["cancelled"; "timeout"; "daemon"; "zmq"; "debugger"; "kerneldied";
   "kernelpromisetimeout"; "jupytersession"; "jupyterconnection";
   "jupyterinstall"; "jupyterselfcert"; "invalidkernel"; "noipykernel";
   "fetcherror"; "notinstalled"; "sessionDisposed"; "unknown"].

(** The two members the code keeps "for historical purposes". *)
Definition historicalCategories : list string :=
  ["kernelspecnotfound"; "unsupportedKernelSpec"].

(** The class declarations of the error hierarchy; [StdErrError] is declared
    in [process/types.ts], [JupyterInstallError] in
    [datascience/errors/jupyterInstallError.ts]. *)
Definition Error : JsClass := Extends "Error" Object.
Definition BaseError : JsClass := Extends "BaseError" Error.
Definition BaseKernelError : JsClass := Extends "BaseKernelError" BaseError.
Definition WrappedError : JsClass := Extends "WrappedError" BaseError.
Definition WrappedKernelError : JsClass := Extends "WrappedKernelError" WrappedError.
Definition StdErrError : JsClass := Extends "StdErrError" BaseError.
Definition JupyterInstallError : JsClass := Extends "JupyterInstallError" BaseError.

(** [Error]: [message: string; stack?: string]. *)
Record ErrorFields : Type := mkErrorFields {
  message : string;
  stack : option string
}.

(** [BaseError]: [stdErr?: string; readonly category: ErrorCategory]. *)
Record BaseErrorFields : Type := mkBaseErrorFields {
  category : ErrorCategory;
  stdErr : option string
}.

(** What the module takes from outside the repository. *)
Class Imports : Type := {
  (** imported from [kernels/types]; only stored *)
  KernelConnectionMetadata : Type;
  (** [EOL] of the [os] module *)
  EOL : string;
  (** the engine's stack capture: the [stack] of an [Error] being
      constructed with the given message *)
  captureStack : string -> string
}.

Section Runtime.

Context `{Imports}.

(** A heap object: its class and the fields its class chain declares.
    [originalException] holds whatever was passed: [WrappedError.from]
    forwards an [any]. *)
Record Obj : Type := mkObj {
  cls : JsClass;
  errorFields : slot (instanceOfClass cls Error) ErrorFields;
  baseFields : slot (instanceOfClass cls BaseError) BaseErrorFields;
  originalException : slot (instanceOfClass cls WrappedError) Value;
  kernelConnectionMetadata :
    slot (instanceOfClass cls BaseKernelError || instanceOfClass cls WrappedKernelError)
         KernelConnectionMetadata
}.

(** The store: object [l] is [h !! l]; [new] allocates at [length h]. *)
Definition Heap : Type := list Obj.

Definition alloc (o : Obj) (h : Heap) : Value * Heap :=
  (VRef (length h), h ++ [o]).

Definition deref (h : Heap) (v : Value) : option Obj :=
  match v with
  | VRef l => h !! l
  | _ => None
  end.

(** [v instanceof C]; a primitive is an instance of nothing. *)
Definition instanceOf (h : Heap) (v : Value) (C : JsClass) : bool :=
  match deref h v with
  | Some o => instanceOfClass (cls o) C
  | None => false
  end.

(** A class test together with the reads it guards: the fields the class
    declares, on the objects that pass [instanceOfClass (cls o) _]. *)
Definition asError (o : Obj) : option ErrorFields := narrow _ (errorFields o).
Definition asBaseError (o : Obj) : option BaseErrorFields := narrow _ (baseFields o).
Definition asWrappedError (o : Obj) : option Value := narrow _ (originalException o).

(** [v.stack] read off a value that is neither [undefined] nor [null]. *)
Definition stackOf (h : Heap) (v : Value) : option string :=
  o ← deref h v; e ← asError o; stack e.

(** [v.category] for a [v] narrowed to [BaseError]. *)
Definition categoryOf (h : Heap) (v : Value) : option ErrorCategory :=
  o ← deref h v; category <$> asBaseError o.

(** [v.originalException] for a [v] narrowed to [WrappedError]. *)
Definition originalExceptionOf (h : Heap) (v : Value) : option Value :=
  deref h v ≫= asWrappedError.

(** [v.message] *)
Definition messageOf (h : Heap) (v : Value) : option string :=
  o ← deref h v; message <$> asError o.

(** <<
    export function getErrorCategory(error?: Error): ErrorCategory {
        if (!error) { return 'unknown'; }
        return error instanceof BaseError ? error.category : 'unknown';
    }
    >>
    [error instanceof BaseError ? error.category : _] is the narrowing
    [asBaseError] of the object [error] denotes. *)
Definition getErrorCategory (h : Heap) (error : Value) : ErrorCategory :=
  if negb (truthy error) then unknown
  else match deref h error ≫= asBaseError with
       | Some b => category b
       | None => unknown
       end.

(** The constructors, as the fields they initialise; [super] calls are the
    nested calls. *)
Definition Error_constructor (msg : string) : ErrorFields :=
  {| message := msg; stack := Some (captureStack msg) |}.

Definition BaseError_constructor (c : ErrorCategory) (msg : string)
  : ErrorFields * BaseErrorFields :=
  (Error_constructor msg, {| category := c; stdErr := None |}).

Definition BaseKernelError_constructor (c : ErrorCategory) (msg : string)
    (k : KernelConnectionMetadata)
  : ErrorFields * BaseErrorFields * KernelConnectionMetadata :=
  (BaseError_constructor c msg, k).

(** <<
    constructor(message: string, public readonly originalException?: Error) {
        super(getErrorCategory(originalException), message);
        if (originalException) {
            this.stack = `${new Error('').stack}${EOL}${EOL}${originalException.stack}`;
        }
    }
    >>
    The [Error] made for its stack alone is not kept in the store. *)
Definition WrappedError_constructor (h : Heap) (msg : string) (original : Value)
  : ErrorFields * BaseErrorFields * Value :=
  let '(e, b) := BaseError_constructor (getErrorCategory h original) msg in
  let e' :=
    if truthy original
    then {| message := message e;
            stack := Some (template (stack (Error_constructor ""))
                           +:+ EOL +:+ EOL +:+ template (stackOf h original)) |}
    else e in
  (e', b, original).

(** [new WrappedError(message, originalException)] *)
Definition new_WrappedError (msg : string) (original : Value) (h : Heap)
  : Value * Heap :=
  let '(e, b, orig) := WrappedError_constructor h msg original in
  alloc (mkObj WrappedError e b orig tt) h.

(** [new WrappedKernelError(message, originalException, kernelConnectionMetadata)] *)
Definition new_WrappedKernelError (msg : string) (original : Value)
    (k : KernelConnectionMetadata) (h : Heap) : Value * Heap :=
  let '(e, b, orig) := WrappedError_constructor h msg original in
  alloc (mkObj WrappedKernelError e b orig k) h.

(** [new StdErrError(message)]: [super('unknown', message)]. *)
Definition new_StdErrError (msg : string) (h : Heap) : Value * Heap :=
  let '(e, b) := BaseError_constructor unknown msg in
  alloc (mkObj StdErrError e b tt tt) h.

(** [new JupyterInstallError(message)]: [super('jupyterinstall', message)]. *)
Definition new_JupyterInstallError (msg : string) (h : Heap) : Value * Heap :=
  let '(e, b) := BaseError_constructor jupyterinstall msg in
  alloc (mkObj JupyterInstallError e b tt tt) h.

(** [new Error(message)] *)
Definition new_Error (msg : string) (h : Heap) : Value * Heap :=
  alloc (mkObj Error (Error_constructor msg) tt tt tt) h.

(** <<
    public static from(message: string, err: any) {
        if (err instanceof BaseError) { return err; }
        else { return new WrappedError(message, err); }
    }
    >> *)
Definition WrappedError_from (msg : string) (err : Value) (h : Heap)
  : Value * Heap :=
  if instanceOf h err BaseError then (err, h)
  else new_WrappedError msg err h.

(** <<
    public static unwrap(err: any) {
        if (!err) { return err; }
        if (err instanceof WrappedError && err.originalException &&
            err.originalException instanceof BaseError) {
            err = err.originalException;
        }
        return err;
    }
    >> *)
Definition WrappedError_unwrap (h : Heap) (err : Value) : Value :=
  if negb (truthy err) then err
  else match deref h err ≫= asWrappedError with
       | Some original =>
           if truthy original && instanceOf h original BaseError
           then original
           else err
       | None => err
       end.





End Runtime.

End Errors.

(** ** [process/types.ts] *)

Module Process.

Import Errors.

(** An options object as it exists at run time: its properties by name.
    The objects passed here are object literals, whose prototype carries no
    [dedicated] property, so [in] and the property read see own properties
    only. *)
Definition hasProperty (key : string) (o : gmap string Value) : bool :=
  bool_decide (is_Some (o !! key)).

Definition getProperty (o : gmap string Value) (key : string) : Value :=
  default VUndefined (o !! key).

(** <<
    export function isDaemonPoolCreationOption(options): options is Pooled... {
        if ('dedicated' in options && options.dedicated === true) {
            return false;
        } else {
            return true;
        }
    }
    >> *)
Definition isDaemonPoolCreationOption (options : gmap string Value) : bool :=
  if hasProperty "dedicated" options
     && strictEquals (getProperty options "dedicated") (VBool true)
  then false
  else true.

(** The discriminant as the type declares it:
    [DedicatedDaemonExecutionFactoryCreationOptions] is the variant with the
    field [dedicated: true]. *)
Definition isDedicatedDaemonCreationOption (options : gmap string Value) : bool :=
  bool_decide (options !! "dedicated" = Some (VBool true)).

(** [Output<Buffer>]: a chunk a process wrote, and where. *)
Inductive Source : Type := stdout_source | stderr_source.

#[global] Instance Source_eq_dec : EqDecision Source.
Proof. solve_decision. Defined.







(** *** [BufferDecoder] and [ProcessService]

    [process/types.ts] declares the interfaces [IBufferDecoder] and
    [IProcessService] only; what follows, down to [exec], is modelled from
    the specification. *)

(** Modelled from the spec: a byte in a range, for the UTF-8 case of
    "decodes using the specified text encoding". *)
Definition between (lo hi : N) (b : byte) : bool :=
  (lo <=? Byte.to_N b)%N && (Byte.to_N b <=? hi)%N.

(** Modelled from the spec: a continuation byte of UTF-8. *)
Definition continuation (b : byte) : bool := between 0x80 0xbf b.

(** Modelled from the spec: U+FFFD, encoded. *)
Definition replacementCharacter : list byte :=
  [Byte.xef; Byte.xbf; Byte.xbd].

(** Modelled from the spec: the admissible range of the byte after lead
    byte [b0] of a three- or four-byte sequence (no overlong forms, no surrogates, nothing above
    U+10FFFF). *)
Definition secondByteRange (b0 : byte) : N * N :=
  if between 0xe0 0xe0 b0 then (0xa0, 0xbf)%N
  else if between 0xed 0xed b0 then (0x80, 0x9f)%N
  else if between 0xf0 0xf0 b0 then (0x90, 0xbf)%N
  else if between 0xf4 0xf4 b0 then (0x80, 0x8f)%N
  else (0x80, 0xbf)%N.

(** Modelled from the spec: the UTF-8 case of "decodes using the specified
    text encoding".  Text is held UTF-8 encoded, so well-formed sequences are
    kept and each maximal ill-formed prefix becomes one U+FFFD. *)
Fixpoint utf8Text (bs : list byte) : list byte :=
  match bs with
  | [] => []
  | b0 :: r0 =>
      let bad := replacementCharacter ++ utf8Text r0 in
      let '(lo, hi) := secondByteRange b0 in
      if between 0x00 0x7f b0 then b0 :: utf8Text r0
      else if between 0xc2 0xdf b0 then
        match r0 with
        | b1 :: r1 =>
            if continuation b1 then b0 :: b1 :: utf8Text r1 else bad
        | [] => bad
        end
      else if between 0xe0 0xef b0 then
        match r0 with
        | b1 :: r1 =>
            if between lo hi b1 then
              match r1 with
              | b2 :: r2 =>
                  if continuation b2 then b0 :: b1 :: b2 :: utf8Text r2
                  else replacementCharacter ++ utf8Text r1
              | [] => replacementCharacter
              end
            else bad
        | [] => bad
        end
      else if between 0xf0 0xf4 b0 then
        match r0 with
        | b1 :: r1 =>
            if between lo hi b1 then
              match r1 with
              | b2 :: r2 =>
                  if continuation b2 then
                    match r2 with
                    | b3 :: r3 =>
                        if continuation b3
                        then b0 :: b1 :: b2 :: b3 :: utf8Text r3
                        else replacementCharacter ++ utf8Text r2
                    | [] => replacementCharacter
                    end
                  else replacementCharacter ++ utf8Text r1
              | [] => replacementCharacter
              end
            else bad
        | [] => bad
        end
      else bad
  end.

(** Modelled from the spec: text encodings other than UTF-8, whose tables
    belong to an encoding library. *)
Class TextCodecs : Type := {
  decodeWith : string -> list byte -> string
}.

Section Services.

Context `{Imports} `{TextCodecs}.

(** Modelled from the spec: the names of the encoding of the specification's
    example, [decode([], 'utf8')]. *)
Definition isUtf8 (encoding : string) : bool :=
  bool_decide (encoding ∈ ["utf8"; "utf-8"]).

(** Modelled from the spec: [BufferDecoder.decode], whose implementation is
    missing.  "[decode(buffers, encoding) -> string]: concatenates raw byte
    buffers and decodes using the specified text encoding; pure, no side
    effects". *)
Definition decode (buffers : list (list byte)) (encoding : string) : string :=
  let bytes := concat buffers in
  if isUtf8 encoding then String.string_of_list_byte (utf8Text bytes)
  else decodeWith encoding bytes.









End Services.

End Process.

(** ** Concrete inputs *)

Module Samples.

Import Errors Process.

Definition LF : string := String (Ascii.ascii_of_nat 10) EmptyString.

(** A POSIX host: [EOL] is a line feed; stacks are a header and one frame. *)
Definition posix : Imports :=
  {| KernelConnectionMetadata := string;
     EOL := LF;
     captureStack := λ msg, "Error: " +:+ msg +:+ LF +:+ "    at <anonymous>" |}.

(** Bytes outside UTF-8 read as they are. *)
Definition rawCodecs : TextCodecs :=
  {| decodeWith := λ _ bytes, String.string_of_list_byte bytes |}.

(** A store holding a [JupyterInstallError] (0), a plain [Error] (1), a
    [WrappedError] of the first (2) and a [WrappedError] of that one (3). *)
Definition store : @Heap posix :=
  let '(e0, h) := @new_JupyterInstallError posix "Jupyter is not installed" [] in
  let '(e1, h) := @new_Error posix "ENOENT" h in
  let '(e2, h) := @new_WrappedError posix "export failed" e0 h in
  let '(e3, h) := @new_WrappedError posix "command failed" e2 h in
  h.






End Samples.

(** ** Stores the constructors build *)

Module ErrorStore.

Import Errors.

Section Store.

Context `{Imports}.

(** A value denotes something in the store: a primitive, or the address of
    an object that has been allocated. *)
Definition allocated (h : Heap) (v : Value) : bool :=
  match v with
  | VRef l => bool_decide (l < length h)
  | _ => true
  end.

(** A value that existed before the object at address [l] was made. *)
Definition precedes (v : Value) (l : nat) : bool :=
  match v with
  | VRef l' => bool_decide (l' < l)
  | _ => true
  end.

(** What [WrappedError]'s constructor leaves behind, its fields being
    [readonly]: the cause existed before the wrapper, and the wrapper's
    category is [getErrorCategory] of the cause. *)
Definition causeRecorded (h : Heap) (l : nat) (o : Obj) : bool :=
  match asWrappedError o with
  | Some original =>
      precedes original l
      && bool_decide (category <$> asBaseError o = Some (getErrorCategory h original))
  | None => true
  end.

(** Every object of the store is as a constructor left it. *)
Definition consistent (h : Heap) : bool :=
  forallb (λ '(l, o), causeRecorded h l o) (imap pair h).

(** [unwrap] applied [n] times. *)
Definition unwrapTimes (h : Heap) (n : nat) (err : Value) : Value :=
  Nat.iter n (WrappedError_unwrap h) err.

End Store.

End ErrorStore.

(** ** [datascience/export/exportInterpreterFinder.ts] *)

Module ExportFinder.

Import Errors.

(** What [await] gives back: the value a promise was fulfilled with, or the
    reason it was rejected with, which [await] throws. *)
Inductive Awaited (A : Type) : Type :=
| Fulfilled (a : A)
| Failed (reason : Value).

Arguments Fulfilled {A} a.
Arguments Failed {A} reason.

(** The injected services, each acting on the world outside (interpreters
    and the packages installed in them), and the localized message. *)
Class Services : Type := {
  PythonEnvironment : Type;
  Outside : Type;
  (** [INbConvertInterpreterDependencyChecker.isNbConvertInstalled] *)
  isNbConvertInstalled : PythonEnvironment → Outside → Awaited bool * Outside;
  (** [JupyterInterpreterService.getSelectedInterpreter] *)
  getSelectedInterpreter : Outside → Awaited (option PythonEnvironment) * Outside;
  (** [IJupyterInterpreterDependencyManager.installMissingDependencies] *)
  installMissingDependencies : Outside → Awaited unit * Outside;
  (** [localize.DataScience.jupyterNbConvertNotSupported()] *)
  jupyterNbConvertNotSupported : string
}.

Section Finder.

Context `{Imports} `{Services}.

(** A call made on a service, with what came back; kept as a record of what
    the method did. *)
Inductive Call : Type :=
| IsNbConvertInstalled (interpreter : PythonEnvironment) (back : Awaited bool)
| GetSelectedInterpreter (back : Awaited (option PythonEnvironment))
| InstallMissingDependencies (back : Awaited unit).

Record State : Type := mkState {
  outside : Outside;
  heap : Heap;
  calls : list Call
}.

(** An [async] body: it runs on the state and is fulfilled or fails. *)
Definition Async (A : Type) : Type := State → Awaited A * State.

Definition ret {A : Type} (a : A) : Async A := λ st, (Fulfilled a, st).

Definition bind {A B : Type} (m : Async A) (k : A → Async B) : Async B :=
  λ st, match m st with
        | (Fulfilled a, st') => k a st'
        | (Failed reason, st') => (Failed reason, st')
        end.

(** [await service(...)], noted in [calls]. *)
Definition await {A : Type} (service : Outside → Awaited A * Outside)
    (note : Awaited A → Call) : Async A :=
  λ st, let '(back, out) := service (outside st) in
        (back, {| outside := out; heap := heap st; calls := calls st ++ [note back] |}).

(** [throw new Error(message)] *)
Definition throwError {A : Type} (msg : string) : Async A :=
  λ st, let '(e, h) := new_Error msg (heap st) in
        (Failed e, {| outside := outside st; heap := h; calls := calls st |}).

(** <<
    private async checkNotebookInterpreter(interpreter: PythonEnvironment) {
        return this.nbConvertDependencyChecker.isNbConvertInstalled(interpreter);
    }
    >> *)
Definition checkNotebookInterpreter (interpreter : PythonEnvironment) : Async bool :=
  await (isNbConvertInstalled interpreter) (IsNbConvertInstalled interpreter).

(** The statements of [getExportInterpreter] after its first [if]. *)
Definition useSelectedInterpreter : Async PythonEnvironment :=
  bind (await getSelectedInterpreter GetSelectedInterpreter) (λ selectedJupyterInterpreter,
  match selectedJupyterInterpreter with
  | Some selected =>
      bind (checkNotebookInterpreter selected) (λ supported,
      if supported then ret selected
      else
        bind (await installMissingDependencies InstallMissingDependencies) (λ _,
        bind (checkNotebookInterpreter selected) (λ supported,
        if supported then ret selected
        else throwError jupyterNbConvertNotSupported)))
  | None => throwError jupyterNbConvertNotSupported
  end).

(** <<
    public async getExportInterpreter(candidateInterpreter?: PythonEnvironment) {
        if (candidateInterpreter &&
            (await this.checkNotebookInterpreter(candidateInterpreter))) {
            return candidateInterpreter;
        }
        const selectedJupyterInterpreter =
            await this.jupyterInterpreterService.getSelectedInterpreter();
        if (selectedJupyterInterpreter) {
            if (await this.checkNotebookInterpreter(selectedJupyterInterpreter)) {
                return selectedJupyterInterpreter;
            } else {
                await this.dependencyManager.installMissingDependencies();
                if (await this.checkNotebookInterpreter(selectedJupyterInterpreter)) {
                    return selectedJupyterInterpreter;
                }
            }
        }
        throw new Error(localize.DataScience.jupyterNbConvertNotSupported());
    }
    >> *)
Definition getExportInterpreter (candidateInterpreter : option PythonEnvironment)
  : Async PythonEnvironment :=
  match candidateInterpreter with
  | Some candidate =>
      bind (checkNotebookInterpreter candidate) (λ supported,
      if supported then ret candidate else useSelectedInterpreter)
  | None => useSelectedInterpreter
  end.

(** The reason a call was rejected with, if it was. *)
Definition rejection (c : Call) : option Value :=
  match c with
  | IsNbConvertInstalled _ (Failed reason)
  | GetSelectedInterpreter (Failed reason)
  | InstallMissingDependencies (Failed reason) => Some reason
  | _ => None
  end.

Definition isInstall (c : Call) : bool :=
  match c with
  | InstallMissingDependencies _ => true
  | _ => false
  end.

(** The calls to [installMissingDependencies] among some calls. *)
Definition installs (cs : list Call) : nat :=
  length (filter (λ c, isInstall c) cs).

End Finder.

End ExportFinder.

(** ** Strings of the post-install script *)

Module JsString.

Section Units.

Context {A : Type} `{EqDecision A}.

(** [pat] is found at the start of [s]. *)
Fixpoint startsWithL (s pat : list A) : bool :=
  match pat, s with
  | [], _ => true
  | p :: pat', c :: s' => bool_decide (p = c) && startsWithL s' pat'
  | _ :: _, [] => false
  end.

(** The first position at which [pat] is found in [s]. *)
Fixpoint indexOfL (s pat : list A) : option nat :=
  if startsWithL s pat then Some 0
  else match s with
       | [] => None
       | _ :: s' => S <$> indexOfL s' pat
       end.

(** [s] with the first [pat] found in it replaced by [new]. *)
Fixpoint replaceL (s pat new : list A) : list A :=
  if startsWithL s pat then new ++ drop (length pat) s
  else match s with
       | [] => []
       | c :: s' => c :: replaceL s' pat new
       end.

(** The lengths at which [p] has a border: a proper, non-empty prefix that
    is a suffix too. *)
Definition borders (p : list A) : list nat :=
  filter (λ n, take n p = drop (length p - n) p) (seq 1 (length p - 1)).

End Units.

(** [s.indexOf(pat)], [-1] when [pat] is not found.  Positions count the
    units of [string]; the script only asks whether the result is [> 0]. *)
Definition indexOf (s pat : string) : Z :=
  match indexOfL (String.list_ascii_of_string s) (String.list_ascii_of_string pat) with
  | Some n => Z.of_nat n
  | None => (-1)%Z
  end.

(** [s.replace(pat, new)] for a string [pat] and a [new] without [$]: the
    first occurrence, if any, is replaced. *)
Definition replace (s pat new : string) : string :=
  String.string_of_list_ascii
    (replaceL (String.list_ascii_of_string s) (String.list_ascii_of_string pat)
              (String.list_ascii_of_string new)).

Definition startsWith (s pat : string) : bool :=
  startsWithL (String.list_ascii_of_string s) (String.list_ascii_of_string pat).

End JsString.

(** ** [build/ci/postInstall.js] *)

Module PostInstall.

Import Errors JsString.

(** What the script requires: [path], [constants.ExtensionRootDir],
    [colors/safe], and of [fs-extra] what a run does not change: the paths
    that exist without being a regular file that can be read (a directory,
    a file without read permission), the paths that cannot be written (a
    read-only file or file system), and the message of the error a failing
    call throws. *)
Class NodeModules : Type := {
  path_join : list string → string;
  ExtensionRootDir : string;
  blue : string → string;
  green : string → string;
  red : string → string;
  otherEntry : string → bool;
  readOnly : string → bool;
  fsError : string → string → string
}.

Section Script.

Context `{Imports} `{NodeModules}.

(** The machine the script runs on: the regular files that can be read, by
    path, with their contents read as utf8; what [console.log] printed; the
    store. *)
Record Machine : Type := mkMachine {
  files : gmap string string;
  console : list string;
  heap : Heap
}.

(** How a statement of a loop body, or a function, ends. *)
Inductive Completion : Type :=
| Normal (m : Machine)
| Return (m : Machine)
| Throw (reason : Value) (m : Machine).

Definition console_log (line : string) (m : Machine) : Machine :=
  {| files := files m; console := console m ++ [line]; heap := heap m |}.

(** [throw new Error(message)] *)
Definition throwError (msg : string) (m : Machine) : Completion :=
  let '(e, h) := new_Error msg (heap m) in
  Throw e {| files := files m; console := console m; heap := h |}.

(** [fs.existsSync(path)]: true of whatever is at the path. *)
Definition existsSync (path : string) (m : Machine) : bool :=
  bool_decide (is_Some (files m !! path)) || otherEntry path.

(** [fs.writeFileSync(path, data)]: throws where the path cannot be
    written. *)
Definition writeFileSync (path data : string) (m : Machine) : Completion :=
  if readOnly path then throwError (fsError "write" path) m
  else Normal {| files := <[path := data]> (files m);
                 console := console m; heap := heap m |}.

Definition fileNames : list string := ["react-data-grid.js"; "react-data-grid.min.js"].

Definition alwaysSortedCode : string :=
  "case g.NONE:e=r?g.DESC:g.ASC;break;case g.ASC:e=g.DESC;break;case g.DESC:e=g.ASC".

Definition originalCode : string :=
  "case g.NONE:e=r?g.DESC:g.ASC;break;case g.ASC:e=r?g.NONE:g.DESC;break;case g.DESC:e=r?g.ASC:g.NONE".

(** A text [c'] that is [c], or [c] with its first [originalCode], found
    past the start, replaced by [alwaysSortedCode]. *)
Definition rewritten (c c' : string) : Prop :=
  c' = c ∨
  ∃ pre post,
    pre ≠ "" ∧
    c = pre +:+ originalCode +:+ post ∧
    c' = pre +:+ alwaysSortedCode +:+ post ∧
    indexOf c originalCode = Z.of_nat (String.length pre) ∧
    (0 <? indexOf c alwaysSortedCode)%Z = false.

Definition relativePathOf (fileName : string) : string :=
  path_join ["node_modules"; "react-data-grid"; "dist"; fileName].

Definition filePathOf (fileName : string) : string :=
  path_join [ExtensionRootDir; relativePathOf fileName].

(** The body of the loop of [makeVariableExplorerAlwaysSorted], for one
    [fileName].  [fs.readFileSync(filePath, { encoding: 'utf8' })] gives the
    text of a regular file that can be read and throws on anything else. *)
Definition sortOneFile (fileName : string) (m : Machine) : Completion :=
  let relativePath := relativePathOf fileName in
  let filePath := filePathOf fileName in
  if negb (existsSync filePath m) then
    throwError ("react-data-grid dist file not found '" +:+ filePath
                +:+ "' (pvsc post install script)") m
  else
    match files m !! filePath with
    | None => throwError (fsError "read" filePath) m
    | Some fileContents =>
        if (0 <? indexOf fileContents alwaysSortedCode)%Z then
          Return (console_log (blue (relativePath +:+ " file already updated (by Jupyter VSC)")) m)
        else if (0 <? indexOf fileContents originalCode)%Z then
          let replacedText := replace fileContents originalCode alwaysSortedCode in
          if bool_decide (fileContents = replacedText) then
            throwError ("Fix for react-data-grid file " +:+ fileName
                        +:+ " failed (pvsc post install script)") m
          else
            match writeFileSync filePath replacedText m with
            | Normal m' =>
                Normal (console_log (green (relativePath +:+ " file updated (by Jupyter VSC)")) m')
            | ended => ended
            end
        else
          Normal (console_log (red (relativePath +:+ " file does not need updating.")) m)
    end.

(** [for (const fileName of names) { ... }] *)
Fixpoint forEachFile (names : list string) (m : Machine) : Completion :=
  match names with
  | [] => Normal m
  | fileName :: rest =>
      match sortOneFile fileName m with
      | Normal m' => forEachFile rest m'
      | ended => ended
      end
  end.

(** <<
    function makeVariableExplorerAlwaysSorted() {
        const fileNames = ['react-data-grid.js', 'react-data-grid.min.js'];
        const alwaysSortedCode = '...';
        const originalCode = '...';
        for (const fileName of fileNames) {
            var relativePath = path.join('node_modules', 'react-data-grid', 'dist', fileName);
            var filePath = path.join(constants.ExtensionRootDir, relativePath);
            if (!fs.existsSync(filePath)) {
                throw new Error("react-data-grid dist file not found '" + filePath +
                                "' (pvsc post install script)");
            }
            var fileContents = fs.readFileSync(filePath, { encoding: 'utf8' });
            if (fileContents.indexOf(alwaysSortedCode) > 0) {
                console.log(colors.blue(relativePath + ' file already updated (by Jupyter VSC)'));
                return;
            }
            if (fileContents.indexOf(originalCode) > 0) {
                var replacedText = fileContents.replace(originalCode, alwaysSortedCode);
                if (fileContents === replacedText) {
                    throw new Error(`Fix for react-data-grid file ${fileName} failed (pvsc post install script)`);
                }
                fs.writeFileSync(filePath, replacedText);
                console.log(colors.green(relativePath + ' file updated (by Jupyter VSC)'));
            } else {
                console.log(colors.red(relativePath + ' file does not need updating.'));
            }
        }
    }
    >>
    A function that ends its loop by [return] has returned. *)
Definition makeVariableExplorerAlwaysSorted (m : Machine) : Completion :=
  match forEachFile fileNames m with
  | Return m' => Normal m'
  | ended => ended
  end.

(** The machine a completion leaves. *)
Definition machineOf (c : Completion) : Machine :=
  match c with
  | Normal m | Return m | Throw _ m => m
  end.

End Script.

End PostInstall.

(** ** [telemetry/constants.ts] *)

Module Telemetry.

(** [export enum EventName] *)
Inductive EventName : Type :=
| EXTENSION_LOAD
| PYTHON_INTERPRETER_ACTIVATION_ENVIRONMENT_VARIABLES
| ENVFILE_VARIABLE_SUBSTITUTION
| ENVFILE_WORKSPACE
| JUPYTER_EXPERIMENTS_OPT_IN_OUT
| PLATFORM_INFO
| HASHED_PACKAGE_NAME
| HASHED_PACKAGE_PERF
| OPEN_DATAVIEWER_FROM_VARIABLE_WINDOW_REQUEST
| OPEN_DATAVIEWER_FROM_VARIABLE_WINDOW_ERROR
| OPEN_DATAVIEWER_FROM_VARIABLE_WINDOW_SUCCESS.

(** The string a member of the enum is. *)
Definition eventName (e : EventName) : string :=
  match e with
  | EXTENSION_LOAD => "EXTENSION.LOAD"
  | PYTHON_INTERPRETER_ACTIVATION_ENVIRONMENT_VARIABLES =>
      "PYTHON_INTERPRETER_ACTIVATION_ENVIRONMENT_VARIABLES"
  | ENVFILE_VARIABLE_SUBSTITUTION => "ENVFILE_VARIABLE_SUBSTITUTION"
  | ENVFILE_WORKSPACE => "ENVFILE_WORKSPACE"
  | JUPYTER_EXPERIMENTS_OPT_IN_OUT => "JUPYTER_EXPERIMENTS_OPT_IN_OUT"
  | PLATFORM_INFO => "PLATFORM.INFO"
  | HASHED_PACKAGE_NAME => "HASHED_PACKAGE_NAME"
  | HASHED_PACKAGE_PERF => "HASHED_PACKAGE_PERF"
  | OPEN_DATAVIEWER_FROM_VARIABLE_WINDOW_REQUEST =>
      "OPEN_DATAVIEWER_FROM_VARIABLE_WINDOW_REQUEST_EX"
  | OPEN_DATAVIEWER_FROM_VARIABLE_WINDOW_ERROR =>
      "OPEN_DATAVIEWER_FROM_VARIABLE_WINDOW_ERROR_EX"
  | OPEN_DATAVIEWER_FROM_VARIABLE_WINDOW_SUCCESS =>
      "OPEN_DATAVIEWER_FROM_VARIABLE_WINDOW_SUCCESS_EX"
  end.

(** [export enum PlatformErrors] *)
Inductive PlatformErrors : Type :=
| FailedToParseVersion
| FailedToDetermineOS.

Definition platformError (e : PlatformErrors) : string :=
  match e with
  | FailedToParseVersion => "FailedToParseVersion"
  | FailedToDetermineOS => "FailedToDetermineOS"
  end.

End Telemetry.

(** ** More concrete inputs *)

Module MoreSamples.

Import Errors ExportFinder PostInstall Samples.

(** Interpreters are named by their path; the world outside is the list of
    those that have nbconvert.  The selected interpreter is [selected];
    installing puts nbconvert into it when [installable], and is rejected
    with ['pip failed'] otherwise. *)
Definition services (selected : option string) (installable : bool) : Services :=
  {| PythonEnvironment := string;
     Outside := list string;
     isNbConvertInstalled := λ i out, (Fulfilled (bool_decide (i ∈ out)), out);
     getSelectedInterpreter := λ out, (Fulfilled selected, out);
     installMissingDependencies := λ out,
       if installable then (Fulfilled (), from_option (λ s, s :: out) out selected)
       else (Failed (VString "pip failed"), out);
     jupyterNbConvertNotSupported :=
       "Jupyter nbconvert is not supported with the selected interpreter" |}.

Definition python3 : string := "/usr/bin/python3".
Definition conda : string := "/opt/conda/bin/python".

(** Nothing has nbconvert, nothing has been called, no object made. *)
Definition bare (s : Services) (out : @Outside s) : @State posix s :=
  @mkState posix s out [] [].

(** [path.join] on POSIX, for segments that need no normalising. *)
Definition posixModules : NodeModules :=
  {| path_join := λ segments, String.concat "/" segments;
     ExtensionRootDir := "/ext";
     blue := λ s, s; green := λ s, s; red := λ s, s;
     otherEntry := λ _, false;
     readOnly := λ _, false;
     fsError := λ call path, call +:+ " failed: " +:+ path |}.

(** The same host with the dist directory mounted read-only. *)
Definition readOnlyModules : NodeModules :=
  {| path_join := λ segments, String.concat "/" segments;
     ExtensionRootDir := "/ext";
     blue := λ s, s; green := λ s, s; red := λ s, s;
     otherEntry := λ _, false;
     readOnly := λ _, true;
     fsError := λ call path, call +:+ " failed: " +:+ path |}.

Definition jsPath : string := "/ext/node_modules/react-data-grid/dist/react-data-grid.js".
Definition minPath : string := "/ext/node_modules/react-data-grid/dist/react-data-grid.min.js".

Definition oldText : string := "switch(t){" +:+ originalCode +:+ "}".
Definition newText : string := "switch(t){" +:+ alwaysSortedCode +:+ "}".

(** Both dist files as installed. *)
Definition installed : @Machine posix :=
  @mkMachine posix (<[jsPath := oldText]> (<[minPath := oldText]> ∅)) [] [].

(** The first dist file already rewritten, the second as installed. *)
Definition halfDone : @Machine posix :=
  @mkMachine posix (<[jsPath := newText]> (<[minPath := oldText]> ∅)) [] [].

(** The second dist file missing. *)
Definition incomplete : @Machine posix :=
  @mkMachine posix (<[jsPath := oldText]> ∅) [] [].

(** A first dist file that begins with the new code and has the old code
    twice. *)
Definition oddText : string :=
  alwaysSortedCode +:+ ";" +:+ originalCode +:+ ";" +:+ originalCode.

Definition odd : @Machine posix :=
  @mkMachine posix (<[jsPath := oddText]> (<[minPath := newText]> ∅)) [] [].

End MoreSamples.

(** * Properties *)

(** ** The error hierarchy *)

Module ErrorFacts.

Import Errors.

Section Facts.

Context `{Imports}.

Implicit Types (h : Heap) (v e err : Value) (o : Obj) (msg : string).

Lemma narrow_Some {T : Type} (present : bool) (x : slot present T) (y : T) :
  narrow present x = Some y → present = true.
Proof. by destruct present. Qed.

Lemma narrow_None {T : Type} (present : bool) (x : slot present T) :
  narrow present x = None ↔ present = false.
Proof. by destruct present. Qed.

(** The narrowed view exists on exactly the instances of the class. *)
Lemma asBaseError_instance o :
  is_Some (asBaseError o) ↔ instanceOfClass (cls o) BaseError = true.
Proof.
  unfold asBaseError. destruct o as [c ef bf oe km]; simpl. clear.
  revert bf. destruct (instanceOfClass c BaseError); simpl; intros bf.
  - split; eauto.
  - split; [intros [x Hx] |]; done.
Qed.

Lemma asWrappedError_instance o :
  is_Some (asWrappedError o) ↔ instanceOfClass (cls o) WrappedError = true.
Proof.
  unfold asWrappedError. destruct o as [c ef bf oe km]; simpl. clear ef bf km.
  revert oe. destruct (instanceOfClass c WrappedError); simpl; intros oe.
  - split; eauto.
  - split; [intros [x Hx] |]; done.
Qed.

Lemma categoryOf_instance h v :
  is_Some (categoryOf h v) ↔ instanceOf h v BaseError = true.
Proof.
  unfold categoryOf, instanceOf. destruct (deref h v) as [o|]; simpl.
  - rewrite <- asBaseError_instance, fmap_is_Some. done.
  - split; [intros [x Hx] |]; done.
Qed.

Lemma originalExceptionOf_instance h v :
  is_Some (originalExceptionOf h v) ↔ instanceOf h v WrappedError = true.
Proof.
  unfold originalExceptionOf, instanceOf. destruct (deref h v) as [o|]; simpl.
  - apply asWrappedError_instance.
  - split; [intros [x Hx] |]; done.
Qed.

(** Every object is truthy, so an instance of anything is. *)
Lemma instanceOf_truthy h v (C : JsClass) : instanceOf h v C = true → truthy v = true.
Proof. unfold instanceOf. by destruct v. Qed.

(** [new] returns the address of the object it appended. *)
Lemma deref_alloc o h : deref (alloc o h).2 (alloc o h).1 = Some o.
Proof. simpl. by apply list_lookup_middle. Qed.

(** Allocation leaves the objects already there as they were. *)
Lemma deref_alloc_old o h v o' : deref h v = Some o' → deref (alloc o h).2 v = Some o'.
Proof. destruct v; simpl; try done. apply lookup_app_l_Some. Qed.

Lemma getErrorCategory_categoryOf h e :
  getErrorCategory h e = default unknown (categoryOf h e).
Proof.
  unfold getErrorCategory, categoryOf.
  destruct (truthy e) eqn:Ht; simpl.
  - destruct (deref h e) as [o|]; simpl; [|done]. by destruct (asBaseError o).
  - destruct e; simpl in *; try done.
Qed.

Lemma getErrorCategory_instance h e :
  instanceOf h e BaseError = true → categoryOf h e = Some (getErrorCategory h e).
Proof.
  intros Hi. rewrite getErrorCategory_categoryOf.
  apply categoryOf_instance in Hi as [c Hc]. by rewrite Hc.
Qed.

Lemma getErrorCategory_other h e :
  instanceOf h e BaseError = false → getErrorCategory h e = unknown.
Proof.
  intros Hi. rewrite getErrorCategory_categoryOf.
  destruct (categoryOf h e) as [c|] eqn:Hc; [|done].
  assert (instanceOf h e BaseError = true) by (apply categoryOf_instance; eauto).
  congruence.
Qed.

(** C5: [getErrorCategory] is the [category] field on an instance of
    [BaseError], and ['unknown'] on [undefined] and on every value that is
    not an instance of [BaseError]. *)
Theorem getErrorCategory_spec h e :
  (instanceOf h e BaseError = true →
     categoryOf h e = Some (getErrorCategory h e)) ∧
  (instanceOf h e BaseError = false → getErrorCategory h e = unknown) ∧
  getErrorCategory h VUndefined = unknown.
Proof.
  split; [|split].
  - apply getErrorCategory_instance.
  - apply getErrorCategory_other.
  - reflexivity.
Qed.

(** The fields [new WrappedError(msg, e)] leaves on the object it returns. *)
Lemma new_WrappedError_deref msg e h :
  deref (new_WrappedError msg e h).2 (new_WrappedError msg e h).1
  = Some (mkObj WrappedError (WrappedError_constructor h msg e).1.1
                             (WrappedError_constructor h msg e).1.2
                             (WrappedError_constructor h msg e).2 tt).
Proof.
  unfold new_WrappedError.
  destruct (WrappedError_constructor h msg e) as [[ef bf] oe]. apply deref_alloc.
Qed.

Lemma new_WrappedError_instance msg e h :
  instanceOf (new_WrappedError msg e h).2 (new_WrappedError msg e h).1 BaseError = true.
Proof. unfold instanceOf. by rewrite new_WrappedError_deref. Qed.

Lemma new_WrappedError_category msg e h :
  categoryOf (new_WrappedError msg e h).2 (new_WrappedError msg e h).1
  = Some (getErrorCategory h e).
Proof. unfold categoryOf. by rewrite new_WrappedError_deref. Qed.

(** C1: [WrappedError.from] applied to its own result returns that result:
    the same address, in an unchanged store. *)
Theorem WrappedError_from_idempotent (m1 m2 : string) err h :
  let '(e, h') := WrappedError_from m1 err h in
  WrappedError_from m2 e h' = (e, h').
Proof.
  unfold WrappedError_from at 1.
  destruct (instanceOf h err BaseError) eqn:Hi.
  - unfold WrappedError_from. by rewrite Hi.
  - pose proof (new_WrappedError_instance m1 err h) as Hw.
    destruct (new_WrappedError m1 err h) as [e h']; simpl in Hw.
    unfold WrappedError_from. by rewrite Hw.
Qed.

(** C9: the category of [new WrappedError(msg, e)] is that of [e] when [e]
    is an instance of [BaseError], and ['unknown'] otherwise, [undefined]
    included. *)
Theorem WrappedError_category_spec msg e h :
  let '(w, h') := new_WrappedError msg e h in
  (instanceOf h e BaseError = true → categoryOf h' w = categoryOf h e) ∧
  (instanceOf h e BaseError = false → categoryOf h' w = Some unknown) ∧
  (e = VUndefined → categoryOf h' w = Some unknown).
Proof.
  pose proof (new_WrappedError_category msg e h) as Hc.
  destruct (new_WrappedError msg e h) as [w h']; simpl in Hc. rewrite Hc.
  split; [|split].
  - intros Hi. by rewrite (getErrorCategory_instance h e Hi).
  - intros Hi. by rewrite (getErrorCategory_other h e Hi).
  - by intros ->.
Qed.

Lemma new_WrappedError_original msg e h :
  originalExceptionOf (new_WrappedError msg e h).2 (new_WrappedError msg e h).1 = Some e.
Proof. unfold originalExceptionOf. by rewrite new_WrappedError_deref. Qed.

Lemma new_WrappedError_stack msg e h :
  stackOf (new_WrappedError msg e h).2 (new_WrappedError msg e h).1
  = if truthy e
    then Some (captureStack "" +:+ EOL +:+ EOL +:+ template (stackOf h e))
    else Some (captureStack msg).
Proof.
  unfold stackOf. rewrite new_WrappedError_deref. simpl.
  by destruct (truthy e).
Qed.

(** C6, as the code has it: a [WrappedError] keeps the exception it was
    constructed with.  When that is truthy, as every object is, the stack is
    a freshly captured stack, two [EOL]s and the stack read off the cause;
    when it is [undefined] or another falsy value, the stack is the one the
    [Error] constructor captured. *)
Theorem WrappedError_stack_spec msg e h :
  let '(w, h') := new_WrappedError msg e h in
  originalExceptionOf h' w = Some e ∧
  (truthy e = true →
     stackOf h' w = Some (captureStack "" +:+ EOL +:+ EOL +:+ template (stackOf h e))) ∧
  (∀ s, stackOf h e = Some s →
     stackOf h' w = Some (captureStack "" +:+ EOL +:+ EOL +:+ s)) ∧
  (truthy e = false → stackOf h' w = stack (Error_constructor msg)) ∧
  (e = VUndefined → stackOf h' w = stack (Error_constructor msg)).
Proof.
  pose proof (new_WrappedError_original msg e h) as Ho.
  pose proof (new_WrappedError_stack msg e h) as Hs.
  destruct (new_WrappedError msg e h) as [w h']; simpl in Ho, Hs.
  split; [done|]. rewrite Hs. split; [|split; [|split]].
  - by intros ->.
  - intros s Hs'. rewrite Hs'. destruct e; try done.
  - by intros ->.
  - by intros ->.
Qed.

(** A falsy value forwarded by [WrappedError.from] is kept as the cause and
    leaves the stack as the [Error] constructor captured it. *)
Lemma WrappedError_stack_falsy msg e h :
  truthy e = false →
  stackOf (new_WrappedError msg e h).2 (new_WrappedError msg e h).1
  = stack (Error_constructor msg).
Proof. intros Ht. by rewrite new_WrappedError_stack, Ht. Qed.

(** A [WrappedKernelError] is initialised by the same constructor. *)
Lemma new_WrappedKernelError_deref msg e k h :
  deref (new_WrappedKernelError msg e k h).2 (new_WrappedKernelError msg e k h).1
  = Some (mkObj WrappedKernelError (WrappedError_constructor h msg e).1.1
                                   (WrappedError_constructor h msg e).1.2
                                   (WrappedError_constructor h msg e).2 k).
Proof.
  unfold new_WrappedKernelError.
  destruct (WrappedError_constructor h msg e) as [[ef bf] oe]. apply deref_alloc.
Qed.

Lemma new_WrappedKernelError_category msg e k h :
  categoryOf (new_WrappedKernelError msg e k h).2 (new_WrappedKernelError msg e k h).1
  = Some (getErrorCategory h e).
Proof. unfold categoryOf. by rewrite new_WrappedKernelError_deref. Qed.

(** C7: [new StdErrError(msg)] is an instance of [BaseError] whose category
    is ['unknown'], for every message. *)
Theorem StdErrError_category_unknown msg h :
  let '(e, h') := new_StdErrError msg h in
  instanceOf h' e StdErrError = true ∧
  instanceOf h' e BaseError = true ∧
  categoryOf h' e = Some unknown ∧
  getErrorCategory h' e = unknown ∧
  messageOf h' e = Some msg.
Proof.
  unfold new_StdErrError, BaseError_constructor.
  set (o := mkObj StdErrError _ _ _ _).
  pose proof (deref_alloc o h) as Hd.
  destruct (alloc o h) as [e h']; simpl in Hd.
  rewrite getErrorCategory_categoryOf.
  unfold instanceOf, categoryOf, messageOf. rewrite Hd. done.
Qed.

Lemma WrappedError_unwrap_original h e original :
  originalExceptionOf h e = Some original →
  WrappedError_unwrap h e
  = if instanceOf h original BaseError then original else e.
Proof.
  intros Ho. unfold WrappedError_unwrap.
  assert (truthy e = true) as ->.
  { apply (instanceOf_truthy h e WrappedError), originalExceptionOf_instance. eauto. }
  unfold originalExceptionOf in Ho. rewrite Ho. simpl.
  destruct (instanceOf h original BaseError) eqn:Hi.
  - by rewrite (instanceOf_truthy _ _ _ Hi).
  - by rewrite andb_false_r.
Qed.

Lemma WrappedError_unwrap_other h e :
  instanceOf h e WrappedError = false → WrappedError_unwrap h e = e.
Proof.
  intros Hi. unfold WrappedError_unwrap.
  destruct (truthy e); simpl; [|done].
  destruct (deref h e ≫= asWrappedError) as [original|] eqn:Ho; [|done].
  assert (instanceOf h e WrappedError = true)
    by (apply originalExceptionOf_instance; unfold originalExceptionOf; eauto).
  congruence.
Qed.

(** C10: [unwrap] returns the cause of a [WrappedError] whose cause is an
    instance of [BaseError], and its argument in every other case; it takes
    off one layer only. *)
Theorem WrappedError_unwrap_spec h e :
  (∀ original, originalExceptionOf h e = Some original →
     instanceOf h original BaseError = true →
     WrappedError_unwrap h e = original) ∧
  (truthy e = false → WrappedError_unwrap h e = e) ∧
  (instanceOf h e WrappedError = false → WrappedError_unwrap h e = e) ∧
  (∀ original, originalExceptionOf h e = Some original →
     instanceOf h original BaseError = false →
     WrappedError_unwrap h e = e) ∧
  (∀ original inner, originalExceptionOf h e = Some original →
     instanceOf h original BaseError = true →
     originalExceptionOf h original = Some inner →
     instanceOf h inner BaseError = true →
     WrappedError_unwrap h e = original ∧
     WrappedError_unwrap h (WrappedError_unwrap h e) = inner).
Proof.
  split; [|split; [|split; [|split]]].
  - intros original Ho Hi. by rewrite (WrappedError_unwrap_original _ _ _ Ho), Hi.
  - intros Ht. unfold WrappedError_unwrap. by rewrite Ht.
  - apply WrappedError_unwrap_other.
  - intros original Ho Hi. by rewrite (WrappedError_unwrap_original _ _ _ Ho), Hi.
  - intros original inner Ho Hi Ho' Hi'.
    rewrite (WrappedError_unwrap_original _ _ _ Ho), Hi.
    by rewrite (WrappedError_unwrap_original _ _ _ Ho'), Hi'.
Qed.

Lemma literal_declared (c : ErrorCategory) :
  literal c ∈ specTaxonomy ++ historicalCategories.
Proof. destruct c; apply (bool_decide_unpack _); reflexivity. Qed.

(** The union the code declares: the seventeen kinds of the taxonomy and
    the two kept "for historical purposes". *)
Lemma category_in_declared_union h v :
  instanceOf h v BaseError = true →
  (∃ c, categoryOf h v = Some c ∧
        literal c ∈ specTaxonomy ++ historicalCategories) ∧
  literal <$> declaredCategories ≡ₚ specTaxonomy ++ historicalCategories.
Proof.
  intros Hi. split.
  - apply categoryOf_instance in Hi as [c Hc]. exists c. split; [done|].
    apply literal_declared.
  - apply (bool_decide_unpack _). vm_compute. reflexivity.
Qed.







End Facts.

End ErrorFacts.

(** ** Daemon options, the decoder and the process service *)

Module ProcessFacts.

Import Errors Process.

Lemma strictEquals_true (v : Value) :
  strictEquals v (VBool true) = bool_decide (v = VBool true).
Proof. by destruct v. Qed.

(** C3: [isDaemonPoolCreationOption] is false exactly on the options whose
    [dedicated] property is [true], and true on all others; so the options
    are of the dedicated variant exactly when they are not of the pooled
    one. *)
Theorem isDaemonPoolCreationOption_spec (options : gmap string Value) :
  (isDaemonPoolCreationOption options = false
     ↔ options !! "dedicated" = Some (VBool true)) ∧
  (isDaemonPoolCreationOption options = true
     ↔ options !! "dedicated" ≠ Some (VBool true)) ∧
  isDedicatedDaemonCreationOption options = negb (isDaemonPoolCreationOption options).
Proof.
  unfold isDaemonPoolCreationOption, isDedicatedDaemonCreationOption,
    hasProperty, getProperty.
  destruct (options !! "dedicated") as [v|] eqn:Hd; simpl.
  - rewrite strictEquals_true.
    destruct (decide (v = VBool true)) as [->|Hv].
    + rewrite !bool_decide_eq_true_2 by done. simpl. naive_solver.
    + rewrite bool_decide_eq_false_2 by done.
      rewrite bool_decide_eq_false_2 by congruence. simpl. naive_solver.
  - naive_solver.
Qed.

Section Services.

Context `{Imports} `{TextCodecs}.

(** C8: [decode] takes the buffers and the encoding and nothing else, sees
    the buffers through their concatenation only, and gives the empty string
    for no buffers, and for empty buffers, in utf8. *)
Theorem decode_empty :
  decode [] "utf8" = "" ∧
  (∀ buffers, concat buffers = [] → decode buffers "utf8" = "") ∧
  (∀ buffers encoding, decode buffers encoding = decode [concat buffers] encoding).
Proof.
  split; [reflexivity|]. split.
  - intros buffers Hb. unfold decode. by rewrite Hb.
  - intros buffers encoding. unfold decode. simpl. by rewrite app_nil_r.
Qed.



End Services.

End ProcessFacts.

(** ** The properties at concrete inputs *)

Module Witnesses.

Import Errors Process Samples ErrorFacts ProcessFacts.

#[local] Existing Instance posix.
#[local] Existing Instance rawCodecs.


Lemma getErrorCategory_spec_witness :
  categoryOf store (VRef 0) = Some jupyterinstall ∧
  getErrorCategory store (VRef 1) = unknown ∧
  getErrorCategory store (VString "boom") = unknown.
Proof.
  split; [|split].
  - exact (proj1 (getErrorCategory_spec store (VRef 0)) eq_refl).
  - exact (proj1 (proj2 (getErrorCategory_spec store (VRef 1))) eq_refl).
  - exact (proj1 (proj2 (getErrorCategory_spec store (VString "boom"))) eq_refl).
Defined.

Lemma WrappedError_category_spec_witness :
  categoryOf (new_WrappedError "retry failed" (VRef 0) store).2 (VRef 4)
  = Some jupyterinstall ∧
  categoryOf (new_WrappedError "retry failed" (VRef 1) store).2 (VRef 4)
  = Some unknown.
Proof.
  split.
  - exact (proj1 (WrappedError_category_spec "retry failed" (VRef 0) store) eq_refl).
  - exact (proj1 (proj2 (WrappedError_category_spec "retry failed" (VRef 1) store)) eq_refl).
Defined.

Lemma WrappedError_stack_spec_witness :
  stackOf (new_WrappedError "spawn failed" (VRef 1) store).2 (VRef 4)
  = Some ("Error: " +:+ LF +:+ "    at <anonymous>" +:+ LF +:+ LF +:+
          "Error: ENOENT" +:+ LF +:+ "    at <anonymous>") ∧
  stackOf (new_WrappedError "spawn failed" VNull store).2 (VRef 4)
  = Some ("Error: spawn failed" +:+ LF +:+ "    at <anonymous>").
Proof.
  split.
  - exact (proj1 (proj2 (proj2 (WrappedError_stack_spec "spawn failed" (VRef 1) store)))
             _ eq_refl).
  - exact (proj1 (proj2 (proj2 (proj2
             (WrappedError_stack_spec "spawn failed" VNull store)))) eq_refl).
Defined.

(** C6 as worded fails: [WrappedError.from] forwards the empty
    string, a defined value, to the constructor; it is kept as the cause and
    the stack is not the concatenation. *)
Lemma WrappedError_stack_defined_falsy :
  VString "" ≠ VUndefined ∧
  (WrappedError_from "spawn failed" (VString "") store).1 = VRef 4 ∧
  originalExceptionOf (WrappedError_from "spawn failed" (VString "") store).2 (VRef 4)
  = Some (VString "") ∧
  stackOf (WrappedError_from "spawn failed" (VString "") store).2 (VRef 4)
  = Some ("Error: spawn failed" +:+ LF +:+ "    at <anonymous>") ∧
  stackOf (WrappedError_from "spawn failed" (VString "") store).2 (VRef 4)
  ≠ Some (captureStack "" +:+ EOL +:+ EOL
          +:+ template (stackOf store (VString ""))).
Proof.
  split; [done|]. split; [reflexivity|]. split; [reflexivity|].
  split; [reflexivity|]. vm_compute. discriminate.
Qed.

(** Address 3 wraps address 2, which wraps address 0: each [unwrap] takes
    off one layer. *)
Lemma WrappedError_unwrap_spec_witness :
  WrappedError_unwrap store (VRef 3) = VRef 2 ∧
  WrappedError_unwrap store (WrappedError_unwrap store (VRef 3)) = VRef 0 ∧
  WrappedError_unwrap store (VRef 1) = VRef 1.
Proof.
  split; [|split].
  - exact (proj1 (WrappedError_unwrap_spec store (VRef 3)) (VRef 2) eq_refl eq_refl).
  - exact (proj2 (proj2 (proj2 (proj2 (proj2 (WrappedError_unwrap_spec store (VRef 3)))))
                   (VRef 2) (VRef 0) eq_refl eq_refl eq_refl eq_refl)).
  - exact (proj1 (proj2 (proj2 (WrappedError_unwrap_spec store (VRef 1)))) eq_refl).
Defined.



End Witnesses.

(** ** Stores the constructors build *)

Module ErrorStoreFacts.

Import Errors ErrorStore ErrorFacts.

Section Facts.

Context `{Imports}.

Implicit Types (h : Heap) (v e err : Value) (o : Obj) (msg : string) (l : nat).

Lemma Class_eqb_refl (c : JsClass) : Class_eqb c c = true.
Proof. induction c as [|n c IH]; simpl; [done|]. by rewrite String.eqb_refl, IH. Qed.

Lemma Class_eqb_eq (c d : JsClass) : Class_eqb c d = true → c = d.
Proof.
  revert d. induction c as [|n c IH]; intros [|m d]; simpl; try done.
  intros [Hn Hc]%andb_true_iff. apply String.eqb_eq in Hn. f_equal; auto.
Qed.

Lemma instanceOfClass_refl (c : JsClass) : instanceOfClass c c = true.
Proof. destruct c; simpl; [done|]. by rewrite String.eqb_refl, Class_eqb_refl. Qed.

(** An instance of a class is an instance of the class it extends. *)
Lemma instanceOfClass_super (c : JsClass) (n : string) (D : JsClass) :
  instanceOfClass c (Extends n D) = true → instanceOfClass c D = true.
Proof.
  induction c as [|m c IH]; [done|].
  cbn [instanceOfClass]. intros [Heq|Hsup]%orb_true_iff.
  - apply Class_eqb_eq in Heq. injection Heq as -> ->.
    by rewrite instanceOfClass_refl, orb_true_r.
  - by rewrite (IH Hsup), orb_true_r.
Qed.

Lemma instanceOf_WrappedError_BaseError h v :
  instanceOf h v WrappedError = true → instanceOf h v BaseError = true.
Proof.
  unfold instanceOf. destruct (deref h v) as [o|]; [|done].
  apply instanceOfClass_super.
Qed.

Lemma deref_allocated h v o : deref h v = Some o → allocated h v = true.
Proof.
  destruct v; try done. simpl. intros Hl%lookup_lt_Some.
  by apply bool_decide_eq_true_2.
Qed.

(** What a value denotes does not change when the store grows. *)
Lemma deref_grow h (k : Heap) v :
  allocated h v = true → deref (h ++ k) v = deref h v.
Proof.
  destruct v; try done. simpl. intros Hl%bool_decide_eq_true_1.
  by apply lookup_app_l.
Qed.

Lemma getErrorCategory_grow h (k : Heap) v :
  allocated h v = true → getErrorCategory (h ++ k) v = getErrorCategory h v.
Proof. intros Ha. unfold getErrorCategory. by rewrite deref_grow. Qed.

Lemma instanceOf_grow h (k : Heap) v (C : JsClass) :
  instanceOf h v C = true → instanceOf (h ++ k) v C = true.
Proof.
  unfold instanceOf. destruct (deref h v) as [o|] eqn:Hd; [|done].
  by rewrite deref_grow, Hd by (by eapply deref_allocated).
Qed.

Lemma new_WrappedError_store msg e h :
  (new_WrappedError msg e h).1 = VRef (length h) ∧
  ∃ o, (new_WrappedError msg e h).2 = h ++ [o].
Proof.
  unfold new_WrappedError. destruct (WrappedError_constructor h msg e) as [[ef bf] oe].
  simpl. eauto.
Qed.

Lemma new_WrappedKernelError_store msg e (k : KernelConnectionMetadata) h :
  (new_WrappedKernelError msg e k h).1 = VRef (length h) ∧
  ∃ o, (new_WrappedKernelError msg e k h).2 = h ++ [o].
Proof.
  unfold new_WrappedKernelError.
  destruct (WrappedError_constructor h msg e) as [[ef bf] oe]. simpl. eauto.
Qed.

Lemma new_WrappedKernelError_original msg e (k : KernelConnectionMetadata) h :
  originalExceptionOf (new_WrappedKernelError msg e k h).2
                      (new_WrappedKernelError msg e k h).1 = Some e.
Proof. unfold originalExceptionOf. by rewrite new_WrappedKernelError_deref. Qed.

(** X1: [WrappedError.from] never changes the classification: the category
    of what it returns is [getErrorCategory] of what it was given. *)
Theorem WrappedError_from_category msg err h :
  let '(e, h') := WrappedError_from msg err h in
  getErrorCategory h' e = getErrorCategory h err.
Proof.
  unfold WrappedError_from. destruct (instanceOf h err BaseError) eqn:Hi; [done|].
  pose proof (new_WrappedError_category msg err h) as Hc.
  destruct (new_WrappedError msg err h) as [w h']; simpl in Hc.
  by rewrite getErrorCategory_categoryOf, Hc.
Qed.

Lemma unwrap_fresh_wrapper msg err h :
  instanceOf h err BaseError = false →
  WrappedError_unwrap (new_WrappedError msg err h).2 (new_WrappedError msg err h).1
  = (new_WrappedError msg err h).1.
Proof.
  intros Hi.
  rewrite (WrappedError_unwrap_original _ _ _ (new_WrappedError_original msg err h)).
  destruct (new_WrappedError_store msg err h) as [Hw [o Hh]]. rewrite Hw, Hh.
  destruct (instanceOf (h ++ [o]) err BaseError) eqn:Hi'; [|done].
  destruct err as [| | | | | |l]; try done.
  destruct (decide (l = length h)) as [->|Hl]; [done|].
  exfalso. unfold instanceOf, deref, Heap in Hi, Hi'.
  destruct (decide (l < length h)).
  - rewrite lookup_app_l in Hi' by done. congruence.
  - rewrite lookup_ge_None_2 in Hi'; [done|]. rewrite length_app. simpl. lia.
Qed.

Lemma new_WrappedError_wrapper msg err h :
  instanceOf (new_WrappedError msg err h).2 (new_WrappedError msg err h).1 WrappedError
  = true.
Proof. unfold instanceOf. by rewrite new_WrappedError_deref. Qed.

(** X2: [unwrap] does not undo [from].  [from] passes an instance of
    [BaseError] through, in an unchanged store, and [unwrap] treats it as
    before.  Anything else in the store it wraps: the result is a new
    [WrappedError], not the value it was given, with that value as its
    cause, and [unwrap] gives back the wrapper, not the value. *)
Theorem WrappedError_unwrap_from msg err h :
  let '(e, h') := WrappedError_from msg err h in
  (WrappedError_unwrap h' e
   = if instanceOf h err BaseError then WrappedError_unwrap h err else e) ∧
  (instanceOf h err BaseError = true → e = err ∧ h' = h) ∧
  (instanceOf h err BaseError = false → allocated h err = true →
     e ≠ err ∧
     instanceOf h' e WrappedError = true ∧
     originalExceptionOf h' e = Some err ∧
     WrappedError_unwrap h' e = e ∧
     WrappedError_unwrap h' e ≠ err).
Proof.
  unfold WrappedError_from. destruct (instanceOf h err BaseError) eqn:Hi; [done|].
  pose proof (unwrap_fresh_wrapper msg err h Hi) as Hu.
  pose proof (new_WrappedError_wrapper msg err h) as Hw.
  pose proof (new_WrappedError_original msg err h) as Ho.
  destruct (new_WrappedError_store msg err h) as [Hl _].
  destruct (new_WrappedError msg err h) as [w h']; simpl in *.
  split; [done|]. split; [done|]. intros _ Ha.
  assert (w ≠ err) as Hne.
  { subst w. intros <-. simpl in Ha. apply bool_decide_eq_true_1 in Ha. lia. }
  rewrite Hu. done.
Qed.

(** The value has to be in the store: at the address the wrapper is about
    to get, [from] gives back the address it was given. *)
Lemma WrappedError_from_next_address msg h :
  instanceOf h (VRef (length h)) BaseError = false ∧
  (WrappedError_from msg (VRef (length h)) h).1 = VRef (length h).
Proof.
  assert (instanceOf h (VRef (length h)) BaseError = false) as Hi.
  { unfold instanceOf, deref, Heap. by rewrite lookup_ge_None_2. }
  split; [done|]. unfold WrappedError_from. rewrite Hi.
  apply new_WrappedError_store.
Qed.

(** X3: a [WrappedError], or a [WrappedKernelError], constructed around an
    instance of [BaseError] unwraps to that instance. *)
Theorem WrappedError_unwrap_new msg e h (k : KernelConnectionMetadata) :
  instanceOf h e BaseError = true →
  (let '(w, h') := new_WrappedError msg e h in WrappedError_unwrap h' w = e) ∧
  (let '(w, h') := new_WrappedKernelError msg e k h in WrappedError_unwrap h' w = e).
Proof.
  intros Hi. split.
  - pose proof (new_WrappedError_original msg e h) as Ho.
    destruct (new_WrappedError_store msg e h) as [_ [o Hh]].
    destruct (new_WrappedError msg e h) as [w h']; simpl in *. subst h'.
    by rewrite (WrappedError_unwrap_original _ _ _ Ho), (instanceOf_grow _ _ _ _ Hi).
  - pose proof (new_WrappedKernelError_original msg e k h) as Ho.
    destruct (new_WrappedKernelError_store msg e k h) as [_ [o Hh]].
    destruct (new_WrappedKernelError msg e k h) as [w h']; simpl in *. subst h'.
    by rewrite (WrappedError_unwrap_original _ _ _ Ho), (instanceOf_grow _ _ _ _ Hi).
Qed.

(** X4: [unwrap] keeps an instance of [BaseError] one, and gives none where
    there was none. *)
Theorem WrappedError_unwrap_instanceOf h e :
  instanceOf h (WrappedError_unwrap h e) BaseError = instanceOf h e BaseError.
Proof.
  destruct (originalExceptionOf h e) as [original|] eqn:Ho.
  - rewrite (WrappedError_unwrap_original _ _ _ Ho).
    destruct (instanceOf h original BaseError) eqn:Hi; [|done].
    rewrite Hi. symmetry.
    apply instanceOf_WrappedError_BaseError, originalExceptionOf_instance. eauto.
  - rewrite WrappedError_unwrap_other; [done|].
    destruct (instanceOf h e WrappedError) eqn:Hw; [|done].
    apply originalExceptionOf_instance in Hw as [x Hx]. congruence.
Qed.

Lemma consistent_lookup h :
  consistent h = true ↔ ∀ l o, h !! l = Some o → causeRecorded h l o = true.
Proof.
  unfold consistent. rewrite forallb_forall. split.
  - intros Hall l o Hl. apply (Hall (l, o)), list_elem_of_In.
    by apply (elem_of_lookup_imap_2 pair).
  - intros Hall [l o] Hin%list_elem_of_In.
    apply elem_of_lookup_imap in Hin as (i & y & Heq & Hl). simplify_eq. by apply Hall.
Qed.

Lemma precedes_allocated h v l : l < length h → precedes v l = true → allocated h v = true.
Proof.
  destruct v; try done. simpl. intros Hl Hp%bool_decide_eq_true_1.
  apply bool_decide_eq_true_2. lia.
Qed.

Lemma causeRecorded_grow h (k : Heap) l o :
  l < length h → causeRecorded h l o = true → causeRecorded (h ++ k) l o = true.
Proof.
  unfold causeRecorded. destruct (asWrappedError o) as [original|]; [|done].
  intros Hl [Hp Hc]%andb_true_iff. rewrite Hp. simpl.
  by rewrite getErrorCategory_grow by (by eapply precedes_allocated).
Qed.

Lemma consistent_alloc h o :
  consistent h = true → causeRecorded (h ++ [o]) (length h) o = true →
  consistent (alloc o h).2 = true.
Proof.
  rewrite !consistent_lookup. simpl. intros Hh Ho l o' Hl.
  apply lookup_app_Some in Hl as [Hl|[Hlen Hl]].
  - apply causeRecorded_grow; [by eapply lookup_lt_Some|by apply Hh].
  - destruct (l - length h) as [|n] eqn:Hn; [|by destruct n].
    simpl in Hl. simplify_eq. by replace l with (length h) by lia.
Qed.

Lemma causeRecorded_wrapper h msg e (k : Heap) (o : Obj) :
  allocated h e = true →
  asWrappedError o = Some e →
  category <$> asBaseError o = Some (getErrorCategory h e) →
  causeRecorded (h ++ k) (length h) o = true.
Proof.
  intros Ha Ho Hc. unfold causeRecorded. rewrite Ho, Hc.
  rewrite getErrorCategory_grow by done.
  rewrite bool_decide_eq_true_2 by done. rewrite andb_true_r.
  by destruct e.
Qed.

Lemma consistent_new_WrappedError msg e h :
  consistent h = true → allocated h e = true →
  consistent (new_WrappedError msg e h).2 = true.
Proof.
  intros Hh Ha. unfold new_WrappedError.
  destruct (WrappedError_constructor h msg e) as [[ef bf] oe] eqn:Hc.
  apply consistent_alloc; [done|].
  unfold WrappedError_constructor, BaseError_constructor in Hc.
  injection Hc as <- <- <-. by apply (causeRecorded_wrapper h msg e).
Qed.

Lemma consistent_new_WrappedKernelError msg e (k : KernelConnectionMetadata) h :
  consistent h = true → allocated h e = true →
  consistent (new_WrappedKernelError msg e k h).2 = true.
Proof.
  intros Hh Ha. unfold new_WrappedKernelError.
  destruct (WrappedError_constructor h msg e) as [[ef bf] oe] eqn:Hc.
  apply consistent_alloc; [done|].
  unfold WrappedError_constructor, BaseError_constructor in Hc.
  injection Hc as <- <- <-. by apply (causeRecorded_wrapper h msg e).
Qed.

(** X5: the constructors and [WrappedError.from] keep the store as
    constructors leave it: every wrapper made after its cause, with the
    category [getErrorCategory] gives the cause.  The cause must denote
    something in the store. *)
Theorem consistent_preserved msg err (k : KernelConnectionMetadata) h :
  consistent h = true → allocated h err = true →
  consistent (WrappedError_from msg err h).2 = true ∧
  allocated (WrappedError_from msg err h).2 (WrappedError_from msg err h).1 = true ∧
  consistent (new_WrappedError msg err h).2 = true ∧
  consistent (new_WrappedKernelError msg err k h).2 = true ∧
  consistent (new_StdErrError msg h).2 = true ∧
  consistent (new_JupyterInstallError msg h).2 = true ∧
  consistent (new_Error msg h).2 = true.
Proof.
  intros Hh Ha.
  pose proof (consistent_new_WrappedError msg err h Hh Ha) as Hw.
  split; [|split; [|split; [done|split; [|split; [|split]]]]].
  - unfold WrappedError_from. by destruct (instanceOf h err BaseError).
  - unfold WrappedError_from. destruct (instanceOf h err BaseError); [done|].
    eapply deref_allocated, new_WrappedError_deref.
  - by apply consistent_new_WrappedKernelError.
  - by apply consistent_alloc.
  - by apply consistent_alloc.
  - by apply consistent_alloc.
Qed.

Lemma unwrap_keeps_category h e :
  consistent h = true →
  getErrorCategory h (WrappedError_unwrap h e) = getErrorCategory h e.
Proof.
  intros Hh. destruct (originalExceptionOf h e) as [original|] eqn:Ho.
  - rewrite (WrappedError_unwrap_original _ _ _ Ho).
    destruct (instanceOf h original BaseError) eqn:Hi; [|done].
    unfold originalExceptionOf in Ho.
    destruct e as [| | | | | |l]; try done. simpl in Ho.
    destruct (h !! l) as [o|] eqn:Hl; [|done]. simpl in Ho.
    pose proof (proj1 (consistent_lookup h) Hh l o Hl) as Hr.
    unfold causeRecorded in Hr. rewrite Ho in Hr.
    apply andb_true_iff in Hr as [_ Hc%bool_decide_eq_true_1].
    rewrite (getErrorCategory_categoryOf h (VRef l)).
    unfold categoryOf. simpl. rewrite Hl. simpl. by rewrite Hc.
  - rewrite WrappedError_unwrap_other; [done|].
    destruct (instanceOf h e WrappedError) eqn:Hw; [|done].
    apply originalExceptionOf_instance in Hw as [x Hx]. congruence.
Qed.

(** X6: in a store as constructors leave it, [unwrap] keeps the category. *)
Theorem WrappedError_unwrap_category h e :
  consistent h = true →
  getErrorCategory h (WrappedError_unwrap h e) = getErrorCategory h e.
Proof. apply unwrap_keeps_category. Qed.

(** A step of [unwrap] that changes its argument moves to an earlier
    address. *)
Lemma WrappedError_unwrap_earlier h e :
  consistent h = true → WrappedError_unwrap h e ≠ e →
  ∃ l l', e = VRef l ∧ WrappedError_unwrap h e = VRef l' ∧ l' < l.
Proof.
  intros Hh Hne. destruct (originalExceptionOf h e) as [original|] eqn:Ho.
  - rewrite (WrappedError_unwrap_original _ _ _ Ho) in *.
    destruct (instanceOf h original BaseError) eqn:Hi; [|done].
    unfold originalExceptionOf in Ho.
    destruct e as [| | | | | |l]; try done. simpl in Ho.
    destruct (h !! l) as [o|] eqn:Hl; [|done]. simpl in Ho.
    pose proof (proj1 (consistent_lookup h) Hh l o Hl) as Hr.
    unfold causeRecorded in Hr. rewrite Ho in Hr.
    apply andb_true_iff in Hr as [Hp _].
    destruct original as [| | | | | |l']; try done.
    apply bool_decide_eq_true_1 in Hp. eauto.
  - exfalso. apply Hne, WrappedError_unwrap_other.
    destruct (instanceOf h e WrappedError) eqn:Hw; [|done].
    apply originalExceptionOf_instance in Hw as [x Hx]. congruence.
Qed.

Lemma unwrapTimes_fixed h n e :
  WrappedError_unwrap h e = e → unwrapTimes h n e = e.
Proof.
  intros He. unfold unwrapTimes. induction n as [|n IH]; [done|].
  simpl. by rewrite IH.
Qed.

Lemma unwrapTimes_succ h n e :
  unwrapTimes h (S n) e = unwrapTimes h n (WrappedError_unwrap h e).
Proof. unfold unwrapTimes. apply Nat.iter_succ_r. Qed.

Lemma unwrapTimes_settles h n e :
  consistent h = true →
  (∀ l, e = VRef l → l ≤ n) →
  WrappedError_unwrap h (unwrapTimes h n e) = unwrapTimes h n e.
Proof.
  intros Hh. revert e. induction n as [|n IH]; intros e Hn.
  - simpl. destruct (decide (WrappedError_unwrap h e = e)) as [|Hne]; [done|].
    apply WrappedError_unwrap_earlier in Hne as (l & l' & -> & _ & Hl); [|done].
    specialize (Hn l eq_refl). lia.
  - destruct (decide (WrappedError_unwrap h e = e)) as [He|Hne].
    + by rewrite unwrapTimes_fixed.
    + rewrite unwrapTimes_succ.
      apply WrappedError_unwrap_earlier in Hne as (l & l' & -> & -> & Hl); [|done].
      apply IH. intros ? [= <-]. specialize (Hn l eq_refl). lia.
Qed.

(** X7: in a store as constructors leave it, unwrapping again and again
    comes to rest: after as many steps as the store has objects, [unwrap]
    changes nothing more, and the category is the one it started with. *)
Theorem unwrapTimes_rest h e :
  consistent h = true →
  WrappedError_unwrap h (unwrapTimes h (length h) e) = unwrapTimes h (length h) e ∧
  ∀ n, getErrorCategory h (unwrapTimes h n e) = getErrorCategory h e.
Proof.
  intros Hh. split.
  - destruct (decide (allocated h e = true)) as [Ha|Hna].
    + apply unwrapTimes_settles; [done|]. intros l ->. simpl in Ha.
      apply bool_decide_eq_true_1 in Ha. lia.
    + assert (WrappedError_unwrap h e = e) as He.
      { apply WrappedError_unwrap_other. unfold instanceOf.
        destruct (deref h e) as [o|] eqn:Hd; [|done].
        by apply deref_allocated in Hd. }
      by rewrite unwrapTimes_fixed.
  - intros n. induction n as [|n IH]; [done|].
    unfold unwrapTimes in *. simpl. by rewrite unwrap_keeps_category.
Qed.

(** X8: [new JupyterInstallError(msg)] is an instance of [BaseError] of
    category ['jupyterinstall'] with the message given; [WrappedError.from]
    hands it back as it is, and a [WrappedError] around it is of category
    ['jupyterinstall'] too. *)
Theorem JupyterInstallError_category msg (m1 m2 : string) h :
  let '(e, h') := new_JupyterInstallError msg h in
  instanceOf h' e JupyterInstallError = true ∧
  instanceOf h' e BaseError = true ∧
  getErrorCategory h' e = jupyterinstall ∧
  messageOf h' e = Some msg ∧
  WrappedError_from m1 e h' = (e, h') ∧
  (let '(w, h'') := new_WrappedError m2 e h' in
   getErrorCategory h'' w = jupyterinstall).
Proof.
  unfold new_JupyterInstallError, BaseError_constructor.
  set (o := mkObj JupyterInstallError _ _ _ _).
  pose proof (deref_alloc o h) as Hd.
  destruct (alloc o h) as [e h']; simpl in Hd.
  assert (instanceOf h' e BaseError = true) as Hi
    by (unfold instanceOf; by rewrite Hd).
  assert (getErrorCategory h' e = jupyterinstall) as Hc.
  { rewrite getErrorCategory_categoryOf. unfold categoryOf. by rewrite Hd. }
  split; [|split; [done|split; [done|split; [|split]]]].
  - unfold instanceOf. by rewrite Hd.
  - unfold messageOf. by rewrite Hd.
  - unfold WrappedError_from. by rewrite Hi.
  - pose proof (new_WrappedError_category m2 e h') as Hw.
    destruct (new_WrappedError m2 e h') as [w h'']; simpl in Hw.
    by rewrite getErrorCategory_categoryOf, Hw, Hc.
Qed.

End Facts.

(** X9: distinct members of [ErrorCategory] are distinct strings, so the
    tag an error carries tells its category. *)
Theorem literal_injective (c d : ErrorCategory) : literal c = literal d → c = d.
Proof. destruct c, d; simpl; intros Heq; first [reflexivity | discriminate Heq]. Qed.

End ErrorStoreFacts.

(** ** Daemon options *)

Module DaemonOptionFacts.

Import Process.

(** X10: the guard looks at the [dedicated] property and at nothing else:
    options that agree on it are told apart in the same way, so adding,
    changing or removing any other property ([daemonModule], [daemonCount],
    ...) changes nothing. *)
Theorem isDaemonPoolCreationOption_dedicated_only (o1 o2 : gmap string Value) :
  o1 !! "dedicated" = o2 !! "dedicated" →
  isDaemonPoolCreationOption o1 = isDaemonPoolCreationOption o2 ∧
  (∀ key v, key ≠ "dedicated" →
     isDaemonPoolCreationOption (<[key:=v]> o1) = isDaemonPoolCreationOption o2) ∧
  (∀ key, key ≠ "dedicated" →
     isDaemonPoolCreationOption (delete key o1) = isDaemonPoolCreationOption o2).
Proof.
  assert (∀ a b : gmap string Value, a !! "dedicated" = b !! "dedicated" →
            isDaemonPoolCreationOption a = isDaemonPoolCreationOption b) as Hagree.
  { intros a b Hab. unfold isDaemonPoolCreationOption, hasProperty, getProperty.
    by rewrite Hab. }
  intros Heq. split; [by apply Hagree|]. split.
  - intros key v Hk. apply Hagree. by rewrite lookup_insert_ne.
  - intros key Hk. apply Hagree. by rewrite lookup_delete_ne.
Qed.

(** X11: writing [dedicated] decides the variant whatever else the options
    hold: only the boolean [true] makes them dedicated, a truthy value such
    as [1] or ['true'] does not; removing the property makes them pooled, as
    the empty options are. *)
Theorem isDaemonPoolCreationOption_write (options : gmap string Value) (v : Value) :
  isDaemonPoolCreationOption (<["dedicated":=v]> options)
  = negb (bool_decide (v = VBool true)) ∧
  isDaemonPoolCreationOption (<["dedicated":=VNumber 1]> options) = true ∧
  isDaemonPoolCreationOption (<["dedicated":=VString "true"]> options) = true ∧
  isDaemonPoolCreationOption (delete "dedicated" options) = true ∧
  isDaemonPoolCreationOption ∅ = true.
Proof.
  assert (∀ u, isDaemonPoolCreationOption (<["dedicated":=u]> options)
               = negb (bool_decide (u = VBool true))) as Hset.
  { intros u. unfold isDaemonPoolCreationOption, hasProperty, getProperty.
    rewrite lookup_insert_eq. simpl.
    rewrite ProcessFacts.strictEquals_true. by destruct (bool_decide (u = VBool true)). }
  split; [apply Hset|]. split; [by rewrite Hset|]. split; [by rewrite Hset|].
  split; [|done].
  unfold isDaemonPoolCreationOption, hasProperty, getProperty.
  by rewrite lookup_delete_eq.
Qed.

End DaemonOptionFacts.

(** ** The export interpreter finder *)

Module ExportFinderFacts.

Import Errors ExportFinder ErrorFacts.

Section Facts.

Context `{Imports} `{Services}.

(** Run the method: open the monad and split on what each call gave back. *)
Ltac run_in Hrun :=
  unfold getExportInterpreter, useSelectedInterpreter, checkNotebookInterpreter,
    bind, await, ret, throwError in Hrun;
  repeat (case_match; simplify_eq; simpl in * ).

(** X12: an interpreter [getExportInterpreter] returns has just been found
    to have nbconvert: the last call made is the check of that interpreter,
    answered true.  It is the candidate or the selected interpreter, and no
    error object has been made. *)
Theorem getExportInterpreter_fulfilled (candidate : option PythonEnvironment)
    (st st' : State) (found : PythonEnvironment) :
  getExportInterpreter candidate st = (Fulfilled found, st') →
  ∃ before,
    calls st' = calls st ++ before ++ [IsNbConvertInstalled found (Fulfilled true)] ∧
    (candidate = Some found ∧ before = [] ∨
     GetSelectedInterpreter (Fulfilled (Some found)) ∈ before) ∧
    heap st' = heap st.
Proof.
  intros Hrun. run_in Hrun.
  all: rewrite <- ?(assoc_L (++)); simpl.
  all: match goal with |- ∃ before, _ ++ ?made = _ ∧ _ => exists (removelast made) end.
  all: simpl; split; [reflexivity|]; split; [|reflexivity].
  all: first [ left; split; reflexivity | right; set_solver ].
Qed.

Lemma new_Error_plain msg (h : Heap) :
  (new_Error msg h).1 = VRef (length h) ∧
  messageOf (new_Error msg h).2 (new_Error msg h).1 = Some msg ∧
  instanceOf (new_Error msg h).2 (new_Error msg h).1 Error = true ∧
  instanceOf (new_Error msg h).2 (new_Error msg h).1 BaseError = false ∧
  getErrorCategory (new_Error msg h).2 (new_Error msg h).1 = unknown.
Proof.
  unfold new_Error. set (o := mkObj Error _ _ _ _).
  pose proof (deref_alloc o h) as Hd. rewrite getErrorCategory_categoryOf.
  unfold messageOf, instanceOf, categoryOf. rewrite Hd. done.
Qed.

(** X13: nbconvert is installed at most once, and only into the selected
    interpreter, right after it was found not to have nbconvert; before
    that only the candidate, if there is one, has been checked and found
    lacking, and after it the selected interpreter is checked once more. *)
Theorem getExportInterpreter_installs (candidate : option PythonEnvironment)
    (st st' : State) (back : Awaited PythonEnvironment) :
  getExportInterpreter candidate st = (back, st') →
  ∃ made,
    calls st' = calls st ++ made ∧
    installs made ≤ 1 ∧
    ∀ r, InstallMissingDependencies r ∈ made →
      ∃ selected pre post,
        made = pre ++ [GetSelectedInterpreter (Fulfilled (Some selected));
                       IsNbConvertInstalled selected (Fulfilled false);
                       InstallMissingDependencies r] ++ post ∧
        (candidate = None ∧ pre = [] ∨
         ∃ c, candidate = Some c ∧ pre = [IsNbConvertInstalled c (Fulfilled false)]) ∧
        (post = [] ∧ (∃ reason, r = Failed reason) ∨
         ∃ b, post = [IsNbConvertInstalled selected b]).
Proof.
  intros Hrun. run_in Hrun.
  all: rewrite <- ?(assoc_L (++)); simpl.
  all: match goal with |- ∃ made, _ ++ ?L = _ ∧ _ => exists L end.
  all: split; [reflexivity|]; split; [vm_compute; lia|].
  all: intros r Hr; repeat (apply elem_of_cons in Hr as [Hr|Hr]; simplify_eq).
  all: try by apply elem_of_nil in Hr.
  all: match goal with
       | |- context [GetSelectedInterpreter (Fulfilled (Some ?s))] => exists s
       end.
  all: match goal with
       | |- ∃ pre post, ?L = _ ∧ _ =>
           first [ exists (firstn 0 L), (skipn 3 L); simpl; split; [reflexivity|]
                 | exists (firstn 1 L), (skipn 4 L); simpl; split; [reflexivity|] ]
       end.
  all: split; [naive_solver|].
  all: first [ right; eexists; reflexivity | left; simpl; eauto ].
Qed.

(** X14: when [getExportInterpreter] fails, either a service was rejected,
    and the method fails with that very reason right after that call; or
    every call was fulfilled, no check was answered true, and the reason is
    a new [Error] with the localized message, an error without a category:
    [getErrorCategory] gives ['unknown']. *)
Theorem getExportInterpreter_failed (candidate : option PythonEnvironment)
    (st st' : State) (reason : Value) :
  getExportInterpreter candidate st = (Failed reason, st') →
  ∃ made,
    calls st' = calls st ++ made ∧
    ((∃ before c, made = before ++ [c] ∧ rejection c = Some reason ∧
                  (∀ c', c' ∈ before → rejection c' = None) ∧
                  heap st' = heap st) ∨
     ((∀ c, c ∈ made → rejection c = None) ∧
      (∀ i b, IsNbConvertInstalled i b ∈ made → b = Fulfilled false) ∧
      reason = VRef (length (heap st)) ∧
      messageOf (heap st') reason = Some jupyterNbConvertNotSupported ∧
      instanceOf (heap st') reason Error = true ∧
      instanceOf (heap st') reason BaseError = false ∧
      getErrorCategory (heap st') reason = unknown)).
Proof.
  intros Hrun. run_in Hrun.
  all: rewrite <- ?(assoc_L (++)); simpl.
  all: match goal with |- ∃ made, _ ++ ?L = _ ∧ _ => exists L end.
  all: split; [reflexivity|].
  all: try (left; match goal with
                  | |- ∃ before c, ?L = _ ∧ _ =>
                      exists (removelast L), (List.last L (GetSelectedInterpreter (Failed VUndefined)))
                  end; simpl; split; [reflexivity|]; split; [reflexivity|];
            split; [|reflexivity]; intros c' Hc';
            repeat (apply elem_of_cons in Hc' as [Hc'|Hc']; simplify_eq); try done;
            by apply elem_of_nil in Hc').
  all: right.
  all: pose proof (new_Error_plain jupyterNbConvertNotSupported (heap st)) as Hplain;
       unfold new_Error in Hplain; simpl in Hplain;
       destruct Hplain as (_ & ? & ? & ? & ?).
  all: split; [|split; [|done]].
  all: intros; repeat (match goal with
                       | Hin : _ ∈ _ :: _ |- _ => apply elem_of_cons in Hin as [Hin|Hin]; simplify_eq
                       | Hin : _ ∈ [] |- _ => by apply elem_of_nil in Hin
                       end); done.
Qed.

End Facts.

End ExportFinderFacts.

(** ** Strings of the post-install script *)

Module JsStringFacts.

Import JsString.

Section Units.

Context {A : Type} `{EqDecision A}.

Implicit Types (s pat new u v w : list A).

Lemma startsWithL_prefix s pat : startsWithL s pat = true ↔ pat `prefix_of` s.
Proof.
  revert s. induction pat as [|p pat IH]; intros s; simpl.
  - split; [intros _; apply prefix_nil|by destruct s].
  - destruct s as [|c s]; simpl.
    + split; [done|]. by intros ?%prefix_nil_not.
    + rewrite andb_true_iff, bool_decide_eq_true, IH. split.
      * intros [-> Hp]. by apply prefix_cons.
      * intros Hp. split; [by eapply prefix_cons_inv_1|by eapply prefix_cons_inv_2].
Qed.

Lemma startsWithL_app s w : startsWithL (s ++ w) s = true.
Proof. apply startsWithL_prefix. by apply prefix_app_r. Qed.

Lemma indexOfL_zero s pat : indexOfL s pat = Some 0 ↔ startsWithL s pat = true.
Proof.
  destruct s as [|c s]; cbn [indexOfL].
  - by destruct (startsWithL [] pat).
  - destruct (startsWithL (c :: s) pat); [done|].
    split; [|done]. by destruct (indexOfL s pat).
Qed.

(** Where the first occurrence is, the text splits around it. *)
Lemma indexOfL_split s pat k :
  indexOfL s pat = Some k →
  s = take k s ++ pat ++ drop (k + length pat) s ∧ length (take k s) = k.
Proof.
  revert k. induction s as [|c s IH]; intros k; cbn [indexOfL replaceL].
  - destruct (startsWithL [] pat) eqn:Hp; [|done]. intros [= <-].
    apply startsWithL_prefix, prefix_nil_inv in Hp as ->. done.
  - destruct (startsWithL (c :: s) pat) eqn:Hp.
    + intros [= <-]. apply startsWithL_prefix in Hp as [w Hw]. simpl.
      rewrite Hw at 2. by rewrite drop_app_length.
    + destruct (indexOfL s pat) as [j|] eqn:Hj; [|done]. intros [= <-].
      destruct (IH j eq_refl) as [Hs Hl]. simpl. split; [by f_equal|by f_equal].
Qed.

Lemma replaceL_split s pat new k :
  indexOfL s pat = Some k →
  replaceL s pat new = take k s ++ new ++ drop (k + length pat) s.
Proof.
  revert k. induction s as [|c s IH]; intros k; cbn [indexOfL replaceL].
  - destruct (startsWithL [] pat); [|done]. by intros [= <-].
  - destruct (startsWithL (c :: s) pat).
    + by intros [= <-].
    + destruct (indexOfL s pat) as [j|] eqn:Hj; [|done]. intros [= <-].
      simpl. f_equal. by apply IH.
Qed.

Lemma replaceL_absent s pat new : indexOfL s pat = None → replaceL s pat new = s.
Proof.
  induction s as [|c s IH]; cbn [indexOfL replaceL].
  - by destruct (startsWithL [] pat).
  - destruct (startsWithL (c :: s) pat); [done|].
    destruct (indexOfL s pat); [done|]. intros _. f_equal. by apply IH.
Qed.

(** A replacement by a text of another length changes the text. *)
Lemma replaceL_changes s pat new k :
  indexOfL s pat = Some k → length pat ≠ length new → replaceL s pat new ≠ s.
Proof.
  intros Hk Hlen Heq. destruct (indexOfL_split _ _ _ Hk) as [Hs _].
  rewrite (replaceL_split _ _ _ _ Hk) in Heq.
  apply (f_equal length) in Heq, Hs. rewrite !length_app in Heq, Hs. lia.
Qed.

(** After a replacement the new text is found, no later than the old one
    was. *)
Lemma indexOfL_replaceL s pat new k :
  indexOfL s pat = Some k →
  ∃ j, indexOfL (replaceL s pat new) new = Some j ∧ j ≤ k.
Proof.
  revert k. induction s as [|c s IH]; intros k; cbn [indexOfL replaceL].
  - destruct (startsWithL [] pat); [|done]. intros [= <-]. exists 0.
    split; [|done]. apply indexOfL_zero, startsWithL_app.
  - destruct (startsWithL (c :: s) pat).
    + intros [= <-]. exists 0. split; [|done]. apply indexOfL_zero, startsWithL_app.
    + destruct (indexOfL s pat) as [i|] eqn:Hi; [|done]. intros [= <-].
      destruct (IH i eq_refl) as (j & Hj & Hle). cbn [indexOfL].
      destruct (startsWithL (c :: replaceL s pat new) new).
      * exists 0. split; [done|lia].
      * rewrite Hj. exists (S j). split; [done|lia].
Qed.

Lemma borders_none (p u v : list A) :
  borders p = [] → p = u ++ v → u ≠ [] → v ≠ [] → ¬ v `prefix_of` p.
Proof.
  intros Hb -> Hu Hv [w Hw].
  assert (length v ∈ borders (u ++ v)) as Hin; [|rewrite Hb in Hin; by apply elem_of_nil in Hin].
  assert (0 < length u) by (destruct u; simpl; [done|lia]).
  assert (0 < length v) by (destruct v; simpl; [done|lia]).
  unfold borders. apply list_elem_of_filter. split.
  - rewrite length_app. replace (length u + length v - length v) with (length u) by lia.
    rewrite drop_app_length. rewrite Hw at 1. by rewrite take_app_length.
  - apply elem_of_seq. rewrite length_app. lia.
Qed.

(** When the new text has no border and the text did not start with it, a
    replacement further on does not make the text start with it. *)
Lemma startsWithL_replaceL s pat new k :
  borders new = [] → startsWithL s new = false → indexOfL s pat = Some (S k) →
  startsWithL (replaceL s pat new) new = false.
Proof.
  intros Hb Hs Hk. destruct (indexOfL_split _ _ _ Hk) as [Hsplit Hlen].
  rewrite (replaceL_split _ _ _ _ Hk).
  set (u := take (S k) s) in *. set (w := drop (S k + length pat) s) in *.
  destruct (startsWithL (u ++ new ++ w) new) eqn:Hn; [|done]. exfalso.
  apply startsWithL_prefix in Hn.
  destruct (prefix_weak_total new u (u ++ new ++ w) Hn (prefix_app_r u u _ (reflexivity u)))
    as [Hnu|[v Hv]].
  - assert (startsWithL s new = true); [|congruence].
    apply startsWithL_prefix. rewrite Hsplit. by apply prefix_app_r.
  - destruct v as [|a v].
    + rewrite app_nil_r in Hv. subst new.
      assert (startsWithL s u = true); [|congruence].
      apply startsWithL_prefix. rewrite Hsplit. by apply prefix_app_r.
    + apply (borders_none new u (a :: v) Hb Hv); [by destruct u|done|].
      rewrite Hv in Hn at 1. apply prefix_app_inv in Hn.
      destruct (prefix_weak_total (a :: v) new (new ++ w) Hn (prefix_app_r new new _ (reflexivity new)))
        as [Hvn|Hnv]; [done|].
      apply prefix_length in Hnv. rewrite Hv, length_app in Hnv. simpl in *. lia.
Qed.

End Units.

Lemma indexOf_positive (s pat : string) :
  (0 <? indexOf s pat)%Z = true ↔
  ∃ k, indexOfL (String.list_ascii_of_string s) (String.list_ascii_of_string pat) = Some (S k).
Proof.
  unfold indexOf. destruct (indexOfL _ _) as [[|k]|]; simpl.
  - split; [done|]. by intros [k Hk].
  - split; [eauto|]. intros _. apply Z.ltb_lt. lia.
  - split; [done|]. by intros [k Hk].
Qed.

Lemma string_of_list_ascii_app (a b : list Ascii.ascii) :
  String.string_of_list_ascii (a ++ b)
  = String.string_of_list_ascii a +:+ String.string_of_list_ascii b.
Proof. induction a as [|x a IH]; simpl; [done|]. by rewrite IH. Qed.

Lemma length_string_of_list_ascii (a : list Ascii.ascii) :
  String.length (String.string_of_list_ascii a) = length a.
Proof. induction a as [|x a IH]; simpl; [done|]. by rewrite IH. Qed.

(** [replace] rewrites the first occurrence and keeps what is around it. *)
Lemma replace_first (c pat new : string) :
  (0 <? indexOf c pat)%Z = true →
  ∃ pre post,
    pre ≠ "" ∧
    c = pre +:+ pat +:+ post ∧
    replace c pat new = pre +:+ new +:+ post ∧
    indexOf c pat = Z.of_nat (String.length pre).
Proof.
  intros [k Hk]%indexOf_positive.
  destruct (indexOfL_split _ _ _ Hk) as [Hsplit Hlen].
  set (l := String.list_ascii_of_string c) in *.
  exists (String.string_of_list_ascii (take (S k) l)),
         (String.string_of_list_ascii (drop (S k + length (String.list_ascii_of_string pat)) l)).
  split; [|split; [|split]].
  - intros Heq. apply (f_equal String.length) in Heq.
    rewrite length_string_of_list_ascii, Hlen in Heq. done.
  - rewrite <- (String.string_of_list_ascii_of_string pat) at 1.
    rewrite <- !string_of_list_ascii_app, <- Hsplit.
    unfold l. by rewrite String.string_of_list_ascii_of_string.
  - unfold replace. fold l. rewrite (replaceL_split _ _ _ _ Hk).
    rewrite !string_of_list_ascii_app.
    by rewrite String.string_of_list_ascii_of_string.
  - unfold indexOf. fold l. rewrite Hk.
    by rewrite length_string_of_list_ascii, Hlen.
Qed.

End JsStringFacts.

(** ** The post-install script *)

Module PostInstallFacts.

Import Errors JsString PostInstall JsStringFacts.

Lemma alwaysSortedCode_borders :
  borders (String.list_ascii_of_string alwaysSortedCode) = [].
Proof. vm_compute. reflexivity. Qed.

Lemma code_lengths :
  length (String.list_ascii_of_string originalCode)
  ≠ length (String.list_ascii_of_string alwaysSortedCode).
Proof. vm_compute. lia. Qed.

(** The replacement the script makes changes the text. *)
Lemma replace_changes (c : string) :
  (0 <? indexOf c originalCode)%Z = true →
  replace c originalCode alwaysSortedCode ≠ c.
Proof.
  intros [k Hk]%indexOf_positive Heq. unfold replace in Heq.
  apply (f_equal String.list_ascii_of_string) in Heq.
  rewrite String.list_ascii_of_string_of_list_ascii in Heq.
  by apply (replaceL_changes _ _ _ _ Hk code_lengths).
Qed.

(** A text that did not start with the new code has it further on once the
    replacement is made. *)
Lemma replace_done (c : string) :
  startsWith c alwaysSortedCode = false →
  (0 <? indexOf c originalCode)%Z = true →
  (0 <? indexOf (replace c originalCode alwaysSortedCode) alwaysSortedCode)%Z = true.
Proof.
  intros Hs [k Hk]%indexOf_positive. apply indexOf_positive.
  unfold replace. rewrite String.list_ascii_of_string_of_list_ascii.
  destruct (indexOfL_replaceL _ _ (String.list_ascii_of_string alwaysSortedCode) _ Hk)
    as ([|j] & Hj & _); [|eauto].
  apply indexOfL_zero in Hj.
  by rewrite (startsWithL_replaceL _ _ _ _ alwaysSortedCode_borders Hs Hk) in Hj.
Qed.

Section Script.

Context `{Imports} `{NodeModules}.

Implicit Types (m : Machine) (c : string).

(** [throw new Error(message)] leaves the files and the console alone. *)
Lemma throwError_spec (msg : string) m :
  ∃ reason m', throwError msg m = Throw reason m' ∧
    files m' = files m ∧ console m' = console m ∧
    messageOf (heap m') reason = Some msg.
Proof.
  unfold throwError.
  pose proof (ExportFinderFacts.new_Error_plain msg (heap m)) as (_ & Hmsg & _).
  destruct (new_Error msg (heap m)) as [e h]. simpl in *. eauto 10.
Qed.

Lemma existsSync_file m (path : string) c :
  files m !! path = Some c → existsSync path m = true.
Proof. intros Hf. unfold existsSync. rewrite Hf. by rewrite bool_decide_eq_true_2. Qed.

Lemma existsSync_none m (path : string) :
  files m !! path = None → existsSync path m = otherEntry path.
Proof.
  intros Hf. unfold existsSync. rewrite Hf.
  rewrite bool_decide_eq_false_2; [done|]. by intros [? ?].
Qed.

(** What the loop body does with one file, by what the file holds. *)
Lemma sortOneFile_missing fileName m :
  files m !! filePathOf fileName = None →
  otherEntry (filePathOf fileName) = false →
  ∃ reason m', sortOneFile fileName m = Throw reason m' ∧
    files m' = files m ∧
    messageOf (heap m') reason
    = Some ("react-data-grid dist file not found '" +:+ filePathOf fileName
            +:+ "' (pvsc post install script)").
Proof.
  intros Hf Ho. unfold sortOneFile. rewrite (existsSync_none _ _ Hf), Ho. simpl.
  destruct (throwError_spec
    ("react-data-grid dist file not found '" +:+ filePathOf fileName
     +:+ "' (pvsc post install script)") m) as (r & m' & ? & ? & ? & ?). eauto 10.
Qed.

Lemma sortOneFile_unreadable fileName m :
  files m !! filePathOf fileName = None →
  otherEntry (filePathOf fileName) = true →
  ∃ reason m', sortOneFile fileName m = Throw reason m' ∧
    files m' = files m ∧
    messageOf (heap m') reason = Some (fsError "read" (filePathOf fileName)).
Proof.
  intros Hf Ho. unfold sortOneFile. rewrite (existsSync_none _ _ Hf), Ho, Hf. simpl.
  destruct (throwError_spec (fsError "read" (filePathOf fileName)) m)
    as (r & m' & ? & ? & ? & ?). eauto 10.
Qed.

Lemma sortOneFile_done fileName m c :
  files m !! filePathOf fileName = Some c →
  (0 <? indexOf c alwaysSortedCode)%Z = true →
  ∃ m', sortOneFile fileName m = Return m' ∧ files m' = files m ∧ heap m' = heap m.
Proof.
  intros Hf Hd. unfold sortOneFile.
  rewrite (existsSync_file _ _ _ Hf), Hf, Hd. simpl. eauto.
Qed.

Lemma sortOneFile_todo fileName m c :
  files m !! filePathOf fileName = Some c →
  (0 <? indexOf c alwaysSortedCode)%Z = false →
  (0 <? indexOf c originalCode)%Z = true →
  readOnly (filePathOf fileName) = false →
  ∃ m', sortOneFile fileName m = Normal m' ∧
    files m' = <[filePathOf fileName := replace c originalCode alwaysSortedCode]> (files m) ∧
    heap m' = heap m.
Proof.
  intros Hf Hd Ht Hw. unfold sortOneFile, writeFileSync.
  rewrite (existsSync_file _ _ _ Hf), Hf, Hd, Ht, Hw. simpl.
  rewrite bool_decide_eq_false_2; [eauto|].
  intros Heq. by apply (replace_changes c).
Qed.

Lemma sortOneFile_blocked fileName m c :
  files m !! filePathOf fileName = Some c →
  (0 <? indexOf c alwaysSortedCode)%Z = false →
  (0 <? indexOf c originalCode)%Z = true →
  readOnly (filePathOf fileName) = true →
  ∃ reason m', sortOneFile fileName m = Throw reason m' ∧
    files m' = files m ∧
    messageOf (heap m') reason = Some (fsError "write" (filePathOf fileName)).
Proof.
  intros Hf Hd Ht Hw. unfold sortOneFile, writeFileSync.
  rewrite (existsSync_file _ _ _ Hf), Hf, Hd, Ht, Hw. cbn [negb].
  rewrite bool_decide_eq_false_2; [|intros Heq; by apply (replace_changes c)].
  destruct (throwError_spec (fsError "write" (filePathOf fileName)) m)
    as (r & m' & -> & ? & ? & ?). eauto 10.
Qed.

Lemma sortOneFile_idle fileName m c :
  files m !! filePathOf fileName = Some c →
  (0 <? indexOf c alwaysSortedCode)%Z = false →
  (0 <? indexOf c originalCode)%Z = false →
  ∃ m', sortOneFile fileName m = Normal m' ∧ files m' = files m ∧ heap m' = heap m.
Proof.
  intros Hf Hd Ht. unfold sortOneFile.
  rewrite (existsSync_file _ _ _ Hf), Hf, Hd, Ht. simpl. eauto.
Qed.

Lemma sortOneFile_cases fileName m :
  (∃ reason m', sortOneFile fileName m = Throw reason m' ∧ files m' = files m ∧
     ((files m !! filePathOf fileName = None ∧
       otherEntry (filePathOf fileName) = false ∧
       messageOf (heap m') reason
       = Some ("react-data-grid dist file not found '" +:+ filePathOf fileName
               +:+ "' (pvsc post install script)")) ∨
      (files m !! filePathOf fileName = None ∧
       otherEntry (filePathOf fileName) = true ∧
       messageOf (heap m') reason = Some (fsError "read" (filePathOf fileName))) ∨
      (∃ c, files m !! filePathOf fileName = Some c ∧
         (0 <? indexOf c alwaysSortedCode)%Z = false ∧
         (0 <? indexOf c originalCode)%Z = true ∧
         readOnly (filePathOf fileName) = true ∧
         messageOf (heap m') reason = Some (fsError "write" (filePathOf fileName))))) ∨
  (∃ c m', files m !! filePathOf fileName = Some c ∧
     (0 <? indexOf c alwaysSortedCode)%Z = true ∧
     sortOneFile fileName m = Return m' ∧ files m' = files m ∧ heap m' = heap m) ∨
  (∃ c m', files m !! filePathOf fileName = Some c ∧
     (0 <? indexOf c alwaysSortedCode)%Z = false ∧
     (0 <? indexOf c originalCode)%Z = true ∧
     sortOneFile fileName m = Normal m' ∧
     files m' = <[filePathOf fileName := replace c originalCode alwaysSortedCode]> (files m) ∧
     heap m' = heap m) ∨
  (∃ c m', files m !! filePathOf fileName = Some c ∧
     (0 <? indexOf c alwaysSortedCode)%Z = false ∧
     (0 <? indexOf c originalCode)%Z = false ∧
     sortOneFile fileName m = Normal m' ∧ files m' = files m ∧ heap m' = heap m).
Proof.
  destruct (files m !! filePathOf fileName) as [c|] eqn:Hf.
  - destruct (0 <? indexOf c alwaysSortedCode)%Z eqn:Hd.
    + right. left. destruct (sortOneFile_done _ _ _ Hf Hd) as (m' & ? & ? & ?). eauto 10.
    + destruct (0 <? indexOf c originalCode)%Z eqn:Ht.
      * destruct (readOnly (filePathOf fileName)) eqn:Hw.
        -- left. destruct (sortOneFile_blocked _ _ _ Hf Hd Ht Hw) as (r & m' & ? & ? & ?).
           exists r, m'. split; [done|]. split; [done|]. right. right. eauto 10.
        -- right. right. left.
           destruct (sortOneFile_todo _ _ _ Hf Hd Ht Hw) as (m' & ? & ? & ?). eauto 10.
      * right. right. right.
        destruct (sortOneFile_idle _ _ _ Hf Hd Ht) as (m' & ? & ? & ?). eauto 10.
  - left. destruct (otherEntry (filePathOf fileName)) eqn:Ho.
    + destruct (sortOneFile_unreadable _ _ Hf Ho) as (r & m' & ? & ? & ?).
      exists r, m'. split; [done|]. split; [done|]. right. left. eauto.
    + destruct (sortOneFile_missing _ _ Hf Ho) as (r & m' & ? & ? & ?).
      exists r, m'. split; [done|]. split; [done|]. left. eauto.
Qed.

(** The run, opened on its two files. *)
Lemma makeVariableExplorerAlwaysSorted_unfold m :
  makeVariableExplorerAlwaysSorted m
  = match sortOneFile "react-data-grid.js" m with
    | Normal m1 =>
        match sortOneFile "react-data-grid.min.js" m1 with
        | Return m2 => Normal m2
        | ended => ended
        end
    | Return m1 => Normal m1
    | ended => ended
    end.
Proof.
  unfold makeVariableExplorerAlwaysSorted, fileNames. simpl.
  destruct (sortOneFile "react-data-grid.js" m); [|done..].
  by destruct (sortOneFile "react-data-grid.min.js" m0).
Qed.

(** X15: whatever the script throws comes from one of the two dist files
    and from one of three places: the "dist file not found" error for a
    path where nothing exists, the error of [fs.readFileSync] for a path
    that exists and cannot be read as a file, or the error of
    [fs.writeFileSync] for a file that has the old code past its start and
    cannot be written.  The [throw] guarded by
    [fileContents === replacedText] is never reached. *)
Theorem makeVariableExplorerAlwaysSorted_throws m (reason : Value) m' :
  makeVariableExplorerAlwaysSorted m = Throw reason m' →
  ∃ fileName, fileName ∈ fileNames ∧
    ((files m' !! filePathOf fileName = None ∧
      otherEntry (filePathOf fileName) = false ∧
      messageOf (heap m') reason
      = Some ("react-data-grid dist file not found '" +:+ filePathOf fileName
              +:+ "' (pvsc post install script)")) ∨
     (files m' !! filePathOf fileName = None ∧
      otherEntry (filePathOf fileName) = true ∧
      messageOf (heap m') reason = Some (fsError "read" (filePathOf fileName))) ∨
     (∃ c, files m' !! filePathOf fileName = Some c ∧
        (0 <? indexOf c alwaysSortedCode)%Z = false ∧
        (0 <? indexOf c originalCode)%Z = true ∧
        readOnly (filePathOf fileName) = true ∧
        messageOf (heap m') reason = Some (fsError "write" (filePathOf fileName)))).
Proof.
  rewrite makeVariableExplorerAlwaysSorted_unfold.
  assert ("react-data-grid.js" ∈ fileNames) as Hin1
    by (apply elem_of_cons; by left).
  assert ("react-data-grid.min.js" ∈ fileNames) as Hin2
    by (apply elem_of_cons; right; apply elem_of_cons; by left).
  destruct (sortOneFile_cases "react-data-grid.js" m)
    as [(r & m1 & -> & Hm1 & Hwhy)
       |[(c & m1 & Hf & Hd & -> & Hm1 & _)
       |[(c & m1 & Hf & Hd & Ht & -> & Hm1 & _)
        |(c & m1 & Hf & Hd & Ht & -> & Hm1 & _)]]]; try done.
  - intros [= <- <-]. exists "react-data-grid.js". split; [done|].
    by rewrite Hm1.
  - destruct (sortOneFile_cases "react-data-grid.min.js" m1)
      as [(r & m2 & -> & Hm2 & Hwhy)
         |[(c2 & m2 & _ & _ & -> & _)
         |[(c2 & m2 & _ & _ & _ & -> & _)
          |(c2 & m2 & _ & _ & _ & -> & _)]]]; try done.
    intros [= <- <-]. exists "react-data-grid.min.js". split; [done|].
    by rewrite Hm2.
  - destruct (sortOneFile_cases "react-data-grid.min.js" m1)
      as [(r & m2 & -> & Hm2 & Hwhy)
         |[(c2 & m2 & _ & _ & -> & _)
         |[(c2 & m2 & _ & _ & _ & -> & _)
          |(c2 & m2 & _ & _ & _ & -> & _)]]]; try done.
    intros [= <- <-]. exists "react-data-grid.min.js". split; [done|].
    by rewrite Hm2.
Qed.

(** X16: [return] ends the whole run.  When [react-data-grid.js] already
    has the new code, the script logs that and stops: no file is written,
    and [react-data-grid.min.js] is not looked at, whether it has the old
    code, the new one, or is missing. *)
Theorem makeVariableExplorerAlwaysSorted_already_updated m c :
  files m !! filePathOf "react-data-grid.js" = Some c →
  (0 <? indexOf c alwaysSortedCode)%Z = true →
  makeVariableExplorerAlwaysSorted m
  = Normal {| files := files m;
              console := console m ++
                [blue (relativePathOf "react-data-grid.js"
                       +:+ " file already updated (by Jupyter VSC)")];
              heap := heap m |}.
Proof.
  intros Hf Hd. rewrite makeVariableExplorerAlwaysSorted_unfold.
  unfold sortOneFile. by rewrite (existsSync_file _ _ _ Hf), Hf, Hd.
Qed.

(** X17: running the script again changes no file, provided neither dist
    file began with the new code at the start: a file the first run
    rewrote is found updated by the second. *)
Theorem makeVariableExplorerAlwaysSorted_again m m1 :
  (∀ fileName c, fileName ∈ fileNames →
     files m !! filePathOf fileName = Some c → startsWith c alwaysSortedCode = false) →
  makeVariableExplorerAlwaysSorted m = Normal m1 →
  ∃ m2, makeVariableExplorerAlwaysSorted m1 = Normal m2 ∧ files m2 = files m1.
Proof.
  intros Hpre. rewrite !makeVariableExplorerAlwaysSorted_unfold.
  assert ("react-data-grid.js" ∈ fileNames) as Hin1
    by (apply elem_of_cons; by left).
  assert ("react-data-grid.min.js" ∈ fileNames) as Hin2
    by (apply elem_of_cons; right; apply elem_of_cons; by left).
  set (f1 := "react-data-grid.js") in *. set (f2 := "react-data-grid.min.js") in *.
  destruct (sortOneFile_cases f1 m)
    as [(r & ma & -> & _)
       |[(c & ma & Hf & Hd & -> & Hma & _)
       |[(c & ma & Hf & Hd & Ht & -> & Hma & _)
        |(c & ma & Hf & Hd & Ht & -> & Hma & _)]]]; [done| | |].
  - (* the first file was updated already *)
    intros [= <-]. rewrite <- Hma in Hf.
    destruct (sortOneFile_done _ _ _ Hf Hd) as (m2 & -> & Hm2 & _). eauto.
  - (* the first file is rewritten *)
    pose proof (replace_done c (Hpre f1 c Hin1 Hf) Ht) as Hd1.
    set (c1 := replace c originalCode alwaysSortedCode) in *.
    assert (files ma !! filePathOf f1 = Some c1) as Hf1
      by (rewrite Hma; apply lookup_insert_eq).
    destruct (sortOneFile_cases f2 ma)
      as [(r & mb & -> & _)
         |[(c2 & mb & Hf2 & Hd2 & -> & Hmb & _)
         |[(c2 & mb & Hf2 & Hd2 & Ht2 & -> & Hmb & _)
          |(c2 & mb & Hf2 & Hd2 & Ht2 & -> & Hmb & _)]]]; [done| | |];
      intros [= <-].
    + rewrite <- Hmb in Hf1.
      destruct (sortOneFile_done _ _ _ Hf1 Hd1) as (m2 & -> & Hm2 & _). eauto.
    + assert (files mb !! filePathOf f1 = Some c1) as Hf1'.
      { rewrite Hmb. destruct (decide (filePathOf f2 = filePathOf f1)) as [Heq|Hne].
        - rewrite Heq in Hf2. congruence.
        - by rewrite lookup_insert_ne. }
      destruct (sortOneFile_done _ _ _ Hf1' Hd1) as (m2 & -> & Hm2 & _). eauto.
    + rewrite <- Hmb in Hf1.
      destruct (sortOneFile_done _ _ _ Hf1 Hd1) as (m2 & -> & Hm2 & _). eauto.
  - (* the first file needs no update *)
    rewrite <- Hma in Hf.
    destruct (sortOneFile_cases f2 ma)
      as [(r & mb & -> & _)
         |[(c2 & mb & Hf2 & Hd2 & -> & Hmb & _)
         |[(c2 & mb & Hf2 & Hd2 & Ht2 & -> & Hmb & _)
          |(c2 & mb & Hf2 & Hd2 & Ht2 & -> & Hmb & _)]]]; [done| | |];
      intros [= <-].
    + rewrite <- Hmb in Hf, Hf2.
      destruct (sortOneFile_idle _ _ _ Hf Hd Ht) as (m2 & -> & Hm2 & _).
      rewrite <- Hm2 in Hf2.
      destruct (sortOneFile_done _ _ _ Hf2 Hd2) as (m3 & -> & Hm3 & _).
      exists m3. split; [done|congruence].
    + assert (filePathOf f2 ≠ filePathOf f1) as Hne.
      { intros Heq. rewrite Heq in Hf2. congruence. }
      assert (startsWith c2 alwaysSortedCode = false) as Hs2.
      { apply (Hpre f2 c2 Hin2). by rewrite <- Hma. }
      pose proof (replace_done c2 Hs2 Ht2) as Hd2'.
      assert (files mb !! filePathOf f1 = Some c) as Hf'
        by (by rewrite Hmb, lookup_insert_ne).
      destruct (sortOneFile_idle _ _ _ Hf' Hd Ht) as (m2 & -> & Hm2 & _).
      assert (files m2 !! filePathOf f2
              = Some (replace c2 originalCode alwaysSortedCode)) as Hf2'
        by (rewrite Hm2, Hmb; apply lookup_insert_eq).
      destruct (sortOneFile_done _ _ _ Hf2' Hd2') as (m3 & -> & Hm3 & _).
      exists m3. split; [done|congruence].
    + rewrite <- Hmb in Hf, Hf2.
      destruct (sortOneFile_idle _ _ _ Hf Hd Ht) as (m2 & -> & Hm2 & _).
      rewrite <- Hm2 in Hf2.
      destruct (sortOneFile_idle _ _ _ Hf2 Hd2 Ht2) as (m3 & -> & Hm3 & _).
      exists m3. split; [done|congruence].
Qed.

Lemma sortOneFile_frame fileName m :
  let m' := match sortOneFile fileName m with
            | Normal m' | Return m' | Throw _ m' => m'
            end in
  (∀ p, p ≠ filePathOf fileName → files m' !! p = files m !! p) ∧
  dom (files m') = dom (files m) ∧
  (∃ lines, console m' = console m ++ lines).
Proof.
  assert (∀ msg, ∃ reason m', throwError msg m = Throw reason m' ∧
            (∀ p, p ≠ filePathOf fileName → files m' !! p = files m !! p) ∧
            dom (files m') = dom (files m) ∧
            (∃ lines, console m' = console m ++ lines)) as Hthrow.
  { intros msg. destruct (throwError_spec msg m) as (r & m' & -> & Hfs & Hcs & _).
    exists r, m'. rewrite Hfs, Hcs. split; [done|]. split; [done|]. split; [done|].
    exists []. by rewrite app_nil_r. }
  unfold sortOneFile, writeFileSync.
  destruct (existsSync (filePathOf fileName) m); cbn [negb].
  2: { by destruct (Hthrow ("react-data-grid dist file not found '"
         +:+ filePathOf fileName +:+ "' (pvsc post install script)"))
         as (r & m' & -> & ?). }
  destruct (files m !! filePathOf fileName) as [c|] eqn:Hf.
  2: { by destruct (Hthrow (fsError "read" (filePathOf fileName)))
         as (r & m' & -> & ?). }
  destruct (0 <? indexOf c alwaysSortedCode)%Z.
  { simpl. split; [done|]. split; [done|]. eauto. }
  destruct (0 <? indexOf c originalCode)%Z.
  - destruct (bool_decide (c = replace c originalCode alwaysSortedCode)).
    { by destruct (Hthrow ("Fix for react-data-grid file " +:+ fileName
           +:+ " failed (pvsc post install script)")) as (r & m' & -> & ?). }
    destruct (readOnly (filePathOf fileName)).
    { by destruct (Hthrow (fsError "write" (filePathOf fileName)))
           as (r & m' & -> & ?). }
    simpl. split; [intros p Hp; by rewrite lookup_insert_ne|].
    split; [|eauto]. apply dom_insert_lookup_L. eauto.
  - simpl. split; [done|]. split; [done|]. eauto.
Qed.

(** X18: the script touches the two dist files and nothing else: every
    other path keeps what it held, no file appears or disappears, and the
    console only gains lines, however the run ends. *)
Theorem makeVariableExplorerAlwaysSorted_frame m :
  let m' := machineOf (makeVariableExplorerAlwaysSorted m) in
  (∀ p, p ∉ filePathOf <$> fileNames → files m' !! p = files m !! p) ∧
  dom (files m') = dom (files m) ∧
  (∃ lines, console m' = console m ++ lines).
Proof.
  rewrite makeVariableExplorerAlwaysSorted_unfold.
  pose proof (sortOneFile_frame "react-data-grid.js" m) as H1.
  assert (∀ p, p ∉ filePathOf <$> fileNames →
            p ≠ filePathOf "react-data-grid.js" ∧
            p ≠ filePathOf "react-data-grid.min.js") as Hout.
  { intros p Hp. split; intros ->; apply Hp; simpl.
    - apply elem_of_cons. by left.
    - apply elem_of_cons. right. apply elem_of_cons. by left. }
  destruct (sortOneFile "react-data-grid.js" m) as [m1|m1|r m1];
    simpl in *; destruct H1 as (Hf1 & Hd1 & l1 & Hc1).
  - pose proof (sortOneFile_frame "react-data-grid.min.js" m1) as H2.
    assert (∀ m2, (∀ p, p ≠ filePathOf "react-data-grid.min.js" →
                     files m2 !! p = files m1 !! p) →
                  dom (files m2) = dom (files m1) →
                  (∃ lines, console m2 = console m1 ++ lines) →
                  (∀ p, p ∉ filePathOf <$> fileNames → files m2 !! p = files m !! p) ∧
                  dom (files m2) = dom (files m) ∧
                  (∃ lines, console m2 = console m ++ lines)) as Hjoin.
    { intros m2 Hf2 Hd2 (l2 & Hc2). split; [|split].
      - intros p Hp. destruct (Hout p Hp). rewrite Hf2, Hf1; done.
      - congruence.
      - exists (l1 ++ l2). by rewrite Hc2, Hc1, (assoc_L (++)). }
    destruct (sortOneFile "react-data-grid.min.js" m1) as [m2|m2|r m2];
      simpl in *; destruct H2 as (Hf2 & Hd2 & Hc2); by apply Hjoin.
  - split; [|split; [done|eauto]]. intros p Hp. destruct (Hout p Hp). by apply Hf1.
  - split; [|split; [done|eauto]]. intros p Hp. destruct (Hout p Hp). by apply Hf1.
Qed.

Lemma sortOneFile_rewrites fileName m c' :
  files (machineOf (sortOneFile fileName m)) !! filePathOf fileName = Some c' →
  ∃ c, files m !! filePathOf fileName = Some c ∧ rewritten c c'.
Proof.
  destruct (sortOneFile_cases fileName m)
    as [(r & m1 & -> & Hm1 & _)
       |[(c & m1 & Hf & Hd & -> & Hm1 & _)
       |[(c & m1 & Hf & Hd & Ht & -> & Hm1 & _)
        |(c & m1 & Hf & Hd & Ht & -> & Hm1 & _)]]]; simpl; rewrite Hm1.
  - intros Hc. exists c'. split; [done|by left].
  - intros Hc. exists c. split; [done|]. left. congruence.
  - rewrite lookup_insert_eq. intros [= <-]. exists c. split; [done|]. right.
    destruct (replace_first c originalCode alwaysSortedCode Ht)
      as (pre & post & ? & ? & ? & ?). eauto 10.
  - intros Hc. exists c. split; [done|]. left. congruence.
Qed.

(** X19: what the script makes of a dist file, the two paths being
    different: the file is left as it was, or its first occurrence of the
    old code, which is not at the very start, is replaced by the new code
    and the text around it is kept. *)
Theorem makeVariableExplorerAlwaysSorted_rewrites m fileName c' :
  filePathOf "react-data-grid.js" ≠ filePathOf "react-data-grid.min.js" →
  fileName ∈ fileNames →
  files (machineOf (makeVariableExplorerAlwaysSorted m)) !! filePathOf fileName = Some c' →
  ∃ c, files m !! filePathOf fileName = Some c ∧
    (c' = c ∨
     ∃ pre post,
       pre ≠ "" ∧
       c = pre +:+ originalCode +:+ post ∧
       c' = pre +:+ alwaysSortedCode +:+ post ∧
       indexOf c originalCode = Z.of_nat (String.length pre) ∧
       (0 <? indexOf c alwaysSortedCode)%Z = false).
Proof.
  intros Hne Hin. rewrite makeVariableExplorerAlwaysSorted_unfold.
  pose proof (sortOneFile_frame "react-data-grid.js" m) as (Hfr1 & _).
  pose proof (sortOneFile_rewrites "react-data-grid.js" m) as Hrw1.
  assert (∀ m1, (∀ p, p ≠ filePathOf "react-data-grid.js" → files m1 !! p = files m !! p) →
                (∀ c'', files m1 !! filePathOf "react-data-grid.js" = Some c'' →
                   ∃ c, files m !! filePathOf "react-data-grid.js" = Some c ∧ rewritten c c'') →
                files m1 !! filePathOf fileName = Some c' →
                ∃ c, files m !! filePathOf fileName = Some c ∧ rewritten c c') as Hone.
  { intros m1 Hfr Hrw Hc'.
    apply elem_of_cons in Hin as [->|Hin]; [by apply Hrw|].
    apply elem_of_cons in Hin as [->|Hin]; [|by apply elem_of_nil in Hin].
    rewrite Hfr in Hc' by done. exists c'. split; [done|by left]. }
  destruct (sortOneFile "react-data-grid.js" m) as [m1|m1|r m1]; simpl in *;
    [|by apply Hone..].
  pose proof (sortOneFile_frame "react-data-grid.min.js" m1) as (Hfr2 & _).
  pose proof (sortOneFile_rewrites "react-data-grid.min.js" m1) as Hrw2.
  assert (∀ m2, (∀ p, p ≠ filePathOf "react-data-grid.min.js" → files m2 !! p = files m1 !! p) →
                (∀ c'', files m2 !! filePathOf "react-data-grid.min.js" = Some c'' →
                   ∃ c, files m1 !! filePathOf "react-data-grid.min.js" = Some c ∧ rewritten c c'') →
                files m2 !! filePathOf fileName = Some c' →
                ∃ c, files m !! filePathOf fileName = Some c ∧ rewritten c c') as Htwo.
  { intros m2 Hfr Hrw Hc'.
    apply elem_of_cons in Hin as [->|Hin].
    - rewrite Hfr in Hc' by done. by apply Hrw1.
    - apply elem_of_cons in Hin as [->|Hin]; [|by apply elem_of_nil in Hin].
      destruct (Hrw _ Hc') as (c & Hc & Hr). exists c. split; [|done].
      rewrite <- Hc. symmetry. apply Hfr1. congruence. }
  destruct (sortOneFile "react-data-grid.min.js" m1) as [m2|m2|r m2]; simpl in *;
    by apply Htwo.
Qed.

End Script.

End PostInstallFacts.

(** ** Telemetry names *)

Module TelemetryFacts.

Import Telemetry.

(** X20: distinct members of [EventName] are distinct event names, and
    distinct members of [PlatformErrors] distinct strings. *)
Theorem telemetry_names_distinct :
  (∀ a b : EventName, eventName a = eventName b → a = b) ∧
  (∀ a b : PlatformErrors, platformError a = platformError b → a = b).
Proof.
  split; intros a b; destruct a, b; simpl; intros Heq;
    first [reflexivity | discriminate Heq].
Qed.

End TelemetryFacts.

(** ** The further properties at concrete inputs *)

Module MoreWitnesses.

Import Errors ErrorStore ExportFinder PostInstall JsString Telemetry.
Import Samples MoreSamples.
Import ErrorStoreFacts DaemonOptionFacts ExportFinderFacts PostInstallFacts TelemetryFacts.

#[local] Existing Instance posix.
#[local] Existing Instance posixModules.

(** Address 1 is a plain [Error]: [from] wraps it at address 4. *)
Lemma WrappedError_unwrap_from_witness :
  instanceOf store (VRef 1) BaseError = false ∧
  allocated store (VRef 1) = true ∧
  (WrappedError_from "spawn failed" (VRef 1) store).1 = VRef 4 ∧
  originalExceptionOf (WrappedError_from "spawn failed" (VRef 1) store).2 (VRef 4)
  = Some (VRef 1) ∧
  WrappedError_unwrap (WrappedError_from "spawn failed" (VRef 1) store).2 (VRef 4)
  ≠ VRef 1.
Proof.
  split; [reflexivity|]. split; [reflexivity|]. split; [reflexivity|].
  destruct (proj2 (proj2 (WrappedError_unwrap_from "spawn failed" (VRef 1) store))
              eq_refl eq_refl) as (_ & _ & Ho & _ & Hne).
  split; [exact Ho|exact Hne].
Defined.

Lemma WrappedError_unwrap_new_witness :
  instanceOf store (VRef 0) BaseError = true ∧
  WrappedError_unwrap (new_WrappedError "export failed" (VRef 0) store).2 (VRef 4)
  = VRef 0 ∧
  WrappedError_unwrap (new_WrappedKernelError "kernel failed" (VRef 0) "python3" store).2
                      (VRef 4)
  = VRef 0.
Proof.
  split; [reflexivity|].
  exact (WrappedError_unwrap_new "export failed" (VRef 0) store "python3" eq_refl).
Defined.

Lemma consistent_preserved_witness :
  consistent store = true ∧ allocated store (VRef 1) = true ∧
  consistent (WrappedError_from "spawn failed" (VRef 1) store).2 = true.
Proof.
  split; [reflexivity|]. split; [reflexivity|].
  exact (proj1 (consistent_preserved "spawn failed" (VRef 1) "python3" store
                  eq_refl eq_refl)).
Defined.

Lemma WrappedError_unwrap_category_witness :
  consistent store = true ∧
  getErrorCategory store (WrappedError_unwrap store (VRef 3)) = jupyterinstall.
Proof.
  split; [reflexivity|].
  exact (WrappedError_unwrap_category store (VRef 3) eq_refl).
Defined.

Lemma unwrapTimes_rest_witness :
  consistent store = true ∧
  unwrapTimes store 4 (VRef 3) = VRef 0 ∧
  WrappedError_unwrap store (VRef 0) = VRef 0.
Proof.
  split; [reflexivity|]. split; [reflexivity|].
  exact (proj1 (unwrapTimes_rest store (VRef 3) eq_refl)).
Defined.

Lemma literal_injective_witness :
  literal kerneldied = literal kerneldied ∧ kerneldied = kerneldied.
Proof. split; [reflexivity|]. exact (literal_injective kerneldied kerneldied eq_refl). Defined.

(** A pooled options object and the same with a daemon count given. *)
Lemma isDaemonPoolCreationOption_dedicated_only_witness :
  Process.isDaemonPoolCreationOption (<["daemonCount" := VNumber 2]> ∅)
  = Process.isDaemonPoolCreationOption (<["daemonModule" := VString "daemon.py"]> ∅).
Proof.
  exact (proj1 (isDaemonPoolCreationOption_dedicated_only
                  (<["daemonCount" := VNumber 2]> ∅)
                  (<["daemonModule" := VString "daemon.py"]> ∅) eq_refl)).
Defined.

(** No candidate; the selected interpreter gets nbconvert installed. *)
Lemma getExportInterpreter_fulfilled_witness :
  ∃ before,
    calls (@getExportInterpreter posix (services (Some python3) true) None
             (bare (services (Some python3) true) [])).2
    = before ++ [@IsNbConvertInstalled (services (Some python3) true) python3
                   (Fulfilled true)].
Proof.
  destruct (@getExportInterpreter_fulfilled posix (services (Some python3) true) None
              (bare (services (Some python3) true) []) _ python3 eq_refl)
    as (before & Hcalls & _).
  exists before. exact Hcalls.
Defined.

Lemma getExportInterpreter_installs_witness :
  ∃ made,
    calls (@getExportInterpreter posix (services (Some python3) true) (Some conda)
             (bare (services (Some python3) true) [])).2 = made ∧
    installs made ≤ 1.
Proof.
  destruct (@getExportInterpreter_installs posix (services (Some python3) true) (Some conda)
              (bare (services (Some python3) true) []) _ _ eq_refl)
    as (made & Hcalls & Hle & _).
  exists made. split; [exact Hcalls|exact Hle].
Defined.

(** A candidate without nbconvert and no selected interpreter. *)
Lemma getExportInterpreter_failed_witness :
  ∃ made,
    calls (@getExportInterpreter posix (services None true) (Some conda)
             (bare (services None true) [])).2 = made.
Proof.
  destruct (@getExportInterpreter_failed posix (services None true) (Some conda)
              (bare (services None true) []) _ (VRef 0) eq_refl)
    as (made & Hcalls & _).
  exists made. exact Hcalls.
Defined.

(** The second dist file is missing: the first is rewritten, then the
    script throws. *)
Lemma makeVariableExplorerAlwaysSorted_throws_witness :
  makeVariableExplorerAlwaysSorted incomplete
  = Throw (VRef 0) (machineOf (makeVariableExplorerAlwaysSorted incomplete)) ∧
  ∃ fileName, fileName ∈ fileNames ∧
    files (machineOf (makeVariableExplorerAlwaysSorted incomplete)) !! filePathOf fileName
    = None.
Proof.
  assert (makeVariableExplorerAlwaysSorted incomplete
          = Throw (VRef 0) (machineOf (makeVariableExplorerAlwaysSorted incomplete)))
    as Hrun by (vm_compute; reflexivity).
  split; [exact Hrun|].
  destruct (makeVariableExplorerAlwaysSorted_throws incomplete (VRef 0) _ Hrun)
    as (fileName & Hin & [(Hf & _)|[(_ & Ho & _)|(_ & _ & _ & _ & Hw & _)]]).
  - exists fileName. split; [exact Hin|exact Hf].
  - discriminate Ho.
  - discriminate Hw.
Defined.

(** On a read-only dist directory the script ends in the error of
    [fs.writeFileSync], and the file keeps the old code. *)
Lemma read_only_run_throws :
  ∃ reason m',
    @makeVariableExplorerAlwaysSorted posix readOnlyModules installed = Throw reason m' ∧
    messageOf (heap m') reason = Some ("write failed: " +:+ jsPath) ∧
    files m' = files installed.
Proof.
  exists (VRef 0), (machineOf (@makeVariableExplorerAlwaysSorted posix readOnlyModules installed)).
  split; [vm_compute; reflexivity|]. split; vm_compute; reflexivity.
Qed.

Lemma makeVariableExplorerAlwaysSorted_already_updated_witness :
  files (machineOf (makeVariableExplorerAlwaysSorted halfDone)) !! minPath = Some oldText.
Proof.
  assert (files halfDone !! filePathOf "react-data-grid.js" = Some newText) as Hf
    by (vm_compute; reflexivity).
  assert ((0 <? indexOf newText alwaysSortedCode)%Z = true) as Hd
    by (vm_compute; reflexivity).
  rewrite (makeVariableExplorerAlwaysSorted_already_updated halfDone newText Hf Hd).
  vm_compute. reflexivity.
Defined.

Lemma makeVariableExplorerAlwaysSorted_again_witness :
  ∃ m2, makeVariableExplorerAlwaysSorted
          (machineOf (makeVariableExplorerAlwaysSorted installed)) = Normal m2 ∧
        files m2 = files (machineOf (makeVariableExplorerAlwaysSorted installed)).
Proof.
  apply (makeVariableExplorerAlwaysSorted_again installed).
  - intros fileName c Hin Hf.
    apply elem_of_cons in Hin as [->|Hin];
      [|apply elem_of_cons in Hin as [->|Hin]; [|by apply elem_of_nil in Hin]].
    + vm_compute in Hf. injection Hf as <-. vm_compute. reflexivity.
    + vm_compute in Hf. injection Hf as <-. vm_compute. reflexivity.
  - vm_compute. reflexivity.
Defined.

(** A second run may rewrite again when a dist file began with the new
    code: here it also had the old code twice. *)
Lemma second_run_may_rewrite :
  startsWith oddText alwaysSortedCode = true ∧
  files (machineOf (makeVariableExplorerAlwaysSorted
                      (machineOf (makeVariableExplorerAlwaysSorted odd))))
  ≠ files (machineOf (makeVariableExplorerAlwaysSorted odd)).
Proof.
  split; [reflexivity|]. intros Heq.
  apply (f_equal (λ fs, fs !! jsPath)) in Heq. vm_compute in Heq. discriminate Heq.
Qed.

Lemma makeVariableExplorerAlwaysSorted_rewrites_witness :
  ∃ c, files installed !! filePathOf "react-data-grid.min.js" = Some c ∧
       rewritten c newText.
Proof.
  apply (makeVariableExplorerAlwaysSorted_rewrites installed "react-data-grid.min.js" newText).
  - vm_compute. discriminate.
  - apply elem_of_cons. right. apply elem_of_cons. by left.
  - vm_compute. reflexivity.
Defined.

End MoreWitnesses.
